(** * A to-do list component: the task-list logic of [src/App.jsx]

    The development embeds the state-management code of the [App] component
    (loading from and saving to the storage slot, [addTodo], [deleteTodo],
    [toggleComplete], [updateTodo], [clearCompleted] and its deferred
    callback) and proves the properties the specification states about it.

    Modelling conventions.
    - A JavaScript value that can sit in a task field is a JSON value
      ([json]); [undefined], which only arises from reading a missing
      property, is [None] of [option json].
    - Numbers are integers ([Z]): every number the component creates is a
      reading of [Date.now()].  Fractional stored numbers are outside the
      model.
    - A string is a [string]: one [ascii] per character, for characters
      with codes below 256; [trim] strips the white space in that range.
    - [Date.now()] reads a clock that the environment owns: the [n]-th call
      returns [readings n], whatever that is.
    - [JSON.parse] and [JSON.stringify] belong to the platform, they are
      section variables; [RefJSON] gives a concrete pair.
    - Console output and the [alert] dialog are not part of the state. *)

From Stdlib Require Import ZArith List String Ascii Bool Arith Lia.
From Stdlib Require Import DecimalString DecimalZ.
Import ListNotations.

Local Open Scope string_scope.
Local Open Scope list_scope.
Local Open Scope Z_scope.

Set Warnings "-register-all".

(* ================================================================== *)
(** ** JavaScript values *)

Module JS.

Inductive json : Type :=
| JNull : json
| JBool : bool -> json
| JNum  : Z -> json
| JStr  : string -> json
| JArr  : list json -> json
| JObj  : list (string * json) -> json.

(** [ToBoolean]: [null], [false], [0] and [''] are falsy, arrays and
    objects are truthy. *)
Definition truthy (v : json) : bool :=
  match v with
  | JNull => false
  | JBool b => b
  | JNum z => negb (z =? 0)
  | JStr s => negb (String.eqb s "")
  | JArr _ => true
  | JObj _ => true
  end.

(** The same on a value that may be [undefined]. *)
Definition truthy_opt (v : option json) : bool :=
  match v with
  | None => false
  | Some x => truthy x
  end.

(** [a || b] when [b] has no effect. *)
Definition js_or (a : option json) (b : json) : json :=
  match a with
  | Some x => if truthy x then x else b
  | None => b
  end.

(** [!v] *)
Definition js_not (v : json) : json := JBool (negb (truthy v)).

(** Own property of an object given by its bindings as they were
    written: a later binding of a key overrides an earlier one. *)
Fixpoint lookup (key : string) (kv : list (string * json)) : option json :=
  match kv with
  | [] => None
  | (k, v) :: rest =>
      match lookup key rest with
      | Some v' => Some v'
      | None => if String.eqb k key then Some v else None
      end
  end.

(** [a === b].  Primitives compare by value.  Arrays and objects compare
    by reference in JavaScript; the model has no references and compares
    them by structure.  The two agree whenever one of the values is a
    primitive ([primitive] below): a statement that says which tasks an
    operation touches is made for a primitive id. *)
Fixpoint strict_eq (a b : json) {struct a} : bool :=
  match a, b with
  | JNull, JNull => true
  | JBool x, JBool y => Bool.eqb x y
  | JNum x, JNum y => x =? y
  | JStr x, JStr y => String.eqb x y
  | JArr xs, JArr ys =>
      (fix go (l1 l2 : list json) {struct l1} : bool :=
         match l1, l2 with
         | [], [] => true
         | x :: l1', y :: l2' => strict_eq x y && go l1' l2'
         | _, _ => false
         end) xs ys
  | JObj xs, JObj ys =>
      (fix go (l1 l2 : list (string * json)) {struct l1} : bool :=
         match l1, l2 with
         | [], [] => true
         | (k1, x) :: l1', (k2, y) :: l2' =>
             String.eqb k1 k2 && strict_eq x y && go l1' l2'
         | _, _ => false
         end) xs ys
  | _, _ => false
  end.

(** A value that is not an array or an object: [null], a boolean, a
    number or a string. *)
Definition primitive (v : json) : bool :=
  match v with
  | JArr _ => false
  | JObj _ => false
  | _ => true
  end.

(** White space of [String.prototype.trim] below 256: TAB, LF, VT, FF, CR,
    SPACE and NO-BREAK SPACE. *)
Definition is_ws (a : ascii) : bool :=
  let n := nat_of_ascii a in
  (Nat.leb 9 n && Nat.leb n 13) || Nat.eqb n 32 || Nat.eqb n 160.

Fixpoint trimStart (s : string) : string :=
  match s with
  | EmptyString => EmptyString
  | String a r => if is_ws a then trimStart r else s
  end.

Fixpoint trimEnd (s : string) : string :=
  match s with
  | EmptyString => EmptyString
  | String a r =>
      match trimEnd r with
      | EmptyString => if is_ws a then EmptyString else String a EmptyString
      | r' => String a r'
      end
  end.

Definition trim (s : string) : string := trimEnd (trimStart s).

(** Every character of a string is white space. *)
Fixpoint all_ws (s : string) : bool :=
  match s with
  | EmptyString => true
  | String a r => is_ws a && all_ws r
  end.

(** The last character of [String a s]. *)
Fixpoint last_char (a : ascii) (s : string) : ascii :=
  match s with
  | EmptyString => a
  | String b r => last_char b r
  end.

(** A string neither starts nor ends with white space. *)
Definition clean_ends (s : string) : bool :=
  match s with
  | EmptyString => true
  | String a r => negb (is_ws a) && negb (is_ws (last_char a r))
  end.

End JS.
Import JS.

(* ================================================================== *)
(** ** The clock behind [Date.now()] *)

Record Clock : Type := mkClock {
  readings : nat -> Z;   (* what the n-th call of Date.now() returns *)
  calls : nat            (* how many calls were made so far *)
}.

Definition Date_now (c : Clock) : Z * Clock :=
  (readings c (calls c), mkClock (readings c) (S (calls c))).

(** The clock of a run in which every reading returns the same
    millisecond. *)
Definition frozen (t : Z) : Clock := mkClock (fun _ => t) 0.

(** A clock that advances by one millisecond at every reading. *)
Definition ticking (t : Z) : Clock := mkClock (fun n => t + Z.of_nat n) 0.

(* ================================================================== *)
(** ** Computations that read the clock and may throw *)

Inductive completion (A : Type) : Type :=
| Normal : A -> completion A
| Throw : completion A.            (* a TypeError on its way to [catch] *)
Arguments Normal {A} _.
Arguments Throw {A}.

Definition M (A : Type) : Type := Clock -> completion A * Clock.

Definition ret {A} (a : A) : M A := fun c => (Normal a, c).
Definition throw {A} : M A := fun c => (Throw, c).
Definition bind {A B} (m : M A) (k : A -> M B) : M B :=
  fun c =>
    match m c with
    | (Normal a, c') => k a c'
    | (Throw, c') => (Throw, c')
    end.
Definition now : M Z := fun c => let (t, c') := Date_now c in (Normal t, c').

Notation "x <- m ;; k" := (bind m (fun x => k))
  (at level 61, m at next level, right associativity).

(** [Array.prototype.map] with a callback that has effects: entries are
    visited from left to right, a throw ends the traversal. *)
Fixpoint mapM {A B} (f : A -> M B) (l : list A) : M (list B) :=
  match l with
  | [] => ret []
  | x :: rest =>
      y <- f x ;;
      ys <- mapM f rest ;;
      ret (y :: ys)
  end.

(* ================================================================== *)
(** ** Tasks *)

Record Todo : Type := mkTodo {
  todo_id : json;
  todo_text : json;
  todo_completed : json;
  todo_createdAt : json
}.

(** The object a task is, keys in creation order (the order
    [JSON.stringify] writes them in). *)
Definition todo_json (t : Todo) : json :=
  JObj [ ("id", todo_id t); ("text", todo_text t);
         ("completed", todo_completed t); ("createdAt", todo_createdAt t) ].

Definition todos_json (l : list Todo) : json := JArr (map todo_json l).

(** [todo.key]: reading a property of [null] throws, an object answers
    from its bindings, and numbers, booleans, strings and arrays have none
    of the four keys the loader reads. *)
Definition get_prop (key : string) (todo : json) : M (option json) :=
  match todo with
  | JNull => throw
  | JObj kv => ret (lookup key kv)
  | _ => ret None
  end.

(** [v || e]: [e] is evaluated only when [v] is falsy. *)
Definition or_else (v : option json) (e : M json) : M json :=
  match v with
  | Some x => if truthy x then ret x else e
  | None => e
  end.

(** [v || Date.now()] *)
Definition or_now (v : option json) : M json :=
  or_else v (t <- now ;; ret (JNum t)).

(** The callback of [parsedTodos.map] (lines 16-21). *)
Definition repair (todo : json) : M Todo :=
  i <- get_prop "id" todo ;;
  id' <- or_now i ;;
  t <- get_prop "text" todo ;;
  c <- get_prop "completed" todo ;;
  ca <- get_prop "createdAt" todo ;;
  createdAt' <- or_else ca (i2 <- get_prop "id" todo ;; or_now i2) ;;
  ret (mkTodo id' (js_or t (JStr "")) (js_or c (JBool false)) createdAt').

(* ================================================================== *)
(** ** The storage slot *)

(** [localStorage] seen through the one key the component uses.  A write
    longer than [capacity] throws [QuotaExceededError]. *)
Record Storage : Type := mkStorage {
  slot : option string;
  capacity : nat
}.

Definition getItem (st : Storage) : option string := slot st.

Definition setItem (st : Storage) (v : string) : option Storage :=
  if Nat.leb (String.length v) (capacity st)
  then Some (mkStorage (Some v) (capacity st))
  else None.

(* ================================================================== *)
(** ** The component *)

(** What a pending [setTimeout] will run.  [RemoveCompleted] is the arrow
    function of lines 136-139; it closes over the [todos] of the render in
    which [clearCompleted] ran.  [FocusInput] is the one of lines 79-81. *)
Inductive Callback : Type :=
| FocusInput : Callback
| RemoveCompleted : list Todo -> Callback.

Record Timer : Type := mkTimer {
  timer_delay : Z;
  timer_callback : Callback
}.

Record State : Type := mkState {
  todos : list Todo;          (* useState(() => loadTodosFromStorage()) *)
  inputValue : string;        (* useState('') *)
  exitingIds : list json;     (* useState([]) *)
  storage : Storage;
  timers : list Timer;        (* pending timeouts, oldest first *)
  clock : Clock;
  todosSet : bool             (* setTodos ran: the [todos] effect is due *)
}.

Definition setTodos (l : list Todo) (s : State) : State :=
  mkState l (inputValue s) (exitingIds s) (storage s) (timers s) (clock s) true.

Definition setInputValue (v : string) (s : State) : State :=
  mkState (todos s) v (exitingIds s) (storage s) (timers s) (clock s)
          (todosSet s).

Definition setExitingIds (ids : list json) (s : State) : State :=
  mkState (todos s) (inputValue s) ids (storage s) (timers s) (clock s)
          (todosSet s).

Definition setTimeout (cb : Callback) (d : Z) (s : State) : State :=
  mkState (todos s) (inputValue s) (exitingIds s) (storage s)
          (timers s ++ [mkTimer d cb]) (clock s) (todosSet s).

Definition with_clock (c : Clock) (s : State) : State :=
  mkState (todos s) (inputValue s) (exitingIds s) (storage s) (timers s) c
          (todosSet s).

Definition with_storage (st : Storage) (s : State) : State :=
  mkState (todos s) (inputValue s) (exitingIds s) st (timers s) (clock s)
          (todosSet s).

Definition with_timers (ts : list Timer) (s : State) : State :=
  mkState (todos s) (inputValue s) (exitingIds s) (storage s) ts (clock s)
          (todosSet s).

Definition rendered (s : State) : State :=
  mkState (todos s) (inputValue s) (exitingIds s) (storage s) (timers s)
          (clock s) false.

(** Animation duration of line 139. *)
Definition EXIT_DELAY : Z := 400.

Definition is_completed (todo : Todo) : bool := truthy (todo_completed todo).

(** Lines 63-82. *)
Definition addTodo (s : State) : State :=
  let trimmedValue := trim (inputValue s) in
  if String.eqb trimmedValue "" then s
  else
    let (t1, c1) := Date_now (clock s) in
    let (t2, c2) := Date_now c1 in
    let newTodo :=
      mkTodo (JNum t1) (JStr trimmedValue) (JBool false) (JNum t2) in
    setTimeout FocusInput 0
      (setInputValue ""
         (setTodos (todos s ++ [newTodo]) (with_clock c2 s))).

(** Lines 98-100. *)
Definition deleteTodo (id : json) (s : State) : State :=
  setTodos (filter (fun todo => negb (strict_eq (todo_id todo) id)) (todos s))
           s.

(** Lines 105-109. *)
Definition toggleComplete (id : json) (s : State) : State :=
  setTodos
    (map (fun todo =>
            if strict_eq (todo_id todo) id
            then mkTodo (todo_id todo) (todo_text todo)
                        (js_not (todo_completed todo)) (todo_createdAt todo)
            else todo)
         (todos s))
    s.

(** Lines 114-121. *)
Definition updateTodo (id : json) (newText : string) (s : State) : State :=
  let trimmedText := trim newText in
  if String.eqb trimmedText "" then s
  else
    setTodos
      (map (fun todo =>
              if strict_eq (todo_id todo) id
              then mkTodo (todo_id todo) (JStr trimmedText)
                          (todo_completed todo) (todo_createdAt todo)
              else todo)
           (todos s))
      s.

(** Lines 127-140. *)
Definition clearCompleted (s : State) : State :=
  let completedIds := map todo_id (filter is_completed (todos s)) in
  if Nat.eqb (List.length completedIds) 0 then s
  else
    setTimeout (RemoveCompleted (todos s)) EXIT_DELAY
      (setExitingIds completedIds s).

(** What a timeout does when it fires. *)
Definition run_callback (cb : Callback) (s : State) : State :=
  match cb with
  | FocusInput => s
  | RemoveCompleted captured =>
      setExitingIds []
        (setTodos (filter (fun todo => negb (is_completed todo)) captured) s)
  end.

(** [exitingIds.includes(todo.id)] of line 193. *)
Definition isExiting (s : State) (todo : Todo) : bool :=
  existsb (strict_eq (todo_id todo)) (exitingIds s).

(** Removing the [k]-th element of a list. *)
Fixpoint remove_nth {A} (k : nat) (l : list A) : list A :=
  match l, k with
  | [], _ => []
  | _ :: rest, O => rest
  | x :: rest, S k' => x :: remove_nth k' rest
  end.

(** The [k]-th pending timeout fires.  Which one is due is the
    environment's choice; [k] out of range is no event at all. *)
Definition fire (k : nat) (s : State) : State :=
  match nth_error (timers s) k with
  | Some t => run_callback (timer_callback t)
                           (with_timers (remove_nth k (timers s)) s)
  | None => s
  end.

(** What the user and the environment can do to the component. *)
Inductive Event : Type :=
| Typing (v : string)                  (* onChange of the input *)
| ClickAdd                             (* the Add button, or Enter *)
| ClickDelete (id : json)              (* onDelete(todo.id) *)
| ClickToggle (id : json)              (* onToggleComplete(todo.id) *)
| SaveEdit (id : json) (newText : string)   (* onUpdate(todo.id, text) *)
| ClickClear                           (* the Clear Completed button *)
| TimerFires (k : nat).

Definition handle (e : Event) (s : State) : State :=
  match e with
  | Typing v => setInputValue v s
  | ClickAdd => addTodo s
  | ClickDelete id => deleteTodo id s
  | ClickToggle id => toggleComplete id s
  | SaveEdit id newText => updateTodo id newText s
  | ClickClear => clearCompleted s
  | TimerFires k => fire k s
  end.

Section Platform.

(** [JSON.parse] ([None] when it throws [SyntaxError]) and
    [JSON.stringify]. *)
Variable JSON_parse : string -> option json.
Variable JSON_stringify : json -> string.

(** Lines 6-28.  The result comes with the clock as the call left it. *)
Definition loadTodosFromStorage (st : Storage) (c : Clock)
  : list Todo * Clock :=
  match getItem st with
  | None => ([], c)
  | Some savedTodos =>
      if String.eqb savedTodos "" then ([], c)
      else
        match JSON_parse savedTodos with
        | None => ([], c)                      (* caught SyntaxError *)
        | Some (JArr (e :: rest)) =>
            match mapM repair (e :: rest) c with
            | (Normal l, c') => (l, c')
            | (Throw, c') => ([], c')          (* caught TypeError *)
            end
        | Some _ => ([], c)
        end
  end.

(** The effect of lines 45-56: a failed write is caught, the list in
    memory stays as it is. *)
Definition saveTodos (l : list Todo) (st : Storage) : Storage :=
  match setItem st (JSON_stringify (todos_json l)) with
  | Some st' => st'
  | None => st
  end.

(** The render that follows an event: the effect runs when [todos] was
    set. *)
Definition render (s : State) : State :=
  if todosSet s
  then rendered (with_storage (saveTodos (todos s) (storage s)) s)
  else s.

Definition step (s : State) (e : Event) : State := render (handle e s).

Definition run (s : State) (es : list Event) : State := fold_left step es s.


End Platform.

(* ================================================================== *)
(** ** A reference JSON printer and parser

    A concrete [JSON.stringify] / [JSON.parse] pair over [json]: the
    printer writes the compact form the platform writes; the parser reads
    JSON text whose numbers are integers (it tolerates leading zeros) and
    whose escapes denote characters below 256. *)

Module RefJSON.

Local Open Scope char_scope.

Definition dquote : ascii := ascii_of_nat 34.
Definition backslash : ascii := ascii_of_nat 92.

Definition hex_digit (n : nat) : ascii :=
  nth n (list_ascii_of_string "0123456789abcdef") "0".

Definition hex_value (a : ascii) : option nat :=
  let n := nat_of_ascii a in
  if (Nat.leb 48 n && Nat.leb n 57)%bool then Some (n - 48)%nat
  else if (Nat.leb 97 n && Nat.leb n 102)%bool then Some (n - 87)%nat
  else if (Nat.leb 65 n && Nat.leb n 70)%bool then Some (n - 55)%nat
  else None.

(** How [JSON.stringify] writes one character of a string. *)
Definition escape_char (a : ascii) : string :=
  let n := nat_of_ascii a in
  if Nat.eqb n 34 then String backslash (String dquote EmptyString)
  else if Nat.eqb n 92 then String backslash (String backslash EmptyString)
  else if Nat.eqb n 8 then String backslash "b"
  else if Nat.eqb n 9 then String backslash "t"
  else if Nat.eqb n 10 then String backslash "n"
  else if Nat.eqb n 12 then String backslash "f"
  else if Nat.eqb n 13 then String backslash "r"
  else if Nat.ltb n 32 then
    String backslash
      (String "u" (String "0" (String "0"
         (String (hex_digit (n / 16)) (String (hex_digit (n mod 16))
            EmptyString)))))
  else String a EmptyString.

Fixpoint escape (s : string) : string :=
  match s with
  | EmptyString => EmptyString
  | String a r => (escape_char a ++ escape r)%string
  end.

Definition print_string (s : string) : string :=
  String dquote (escape s ++ String dquote EmptyString)%string.

Definition print_num (z : Z) : string := NilZero.string_of_int (Z.to_int z).

Fixpoint stringify (v : json) : string :=
  match v with
  | JNull => "null"
  | JBool true => "true"
  | JBool false => "false"
  | JNum z => print_num z
  | JStr s => print_string s
  | JArr l =>
      let fix elems (l : list json) : string :=
        match l with
        | [] => EmptyString
        | [x] => stringify x
        | x :: rest => (stringify x ++ "," ++ elems rest)%string
        end in
      ("[" ++ elems l ++ "]")%string
  | JObj kv =>
      let fix members (kv : list (string * json)) : string :=
        match kv with
        | [] => EmptyString
        | [(k, x)] => (print_string k ++ ":" ++ stringify x)%string
        | (k, x) :: rest =>
            (print_string k ++ ":" ++ stringify x ++ "," ++ members rest)%string
        end in
      ("{" ++ members kv ++ "}")%string
  end.

(** JSON white space: space, TAB, LF, CR. *)
Definition is_json_ws (a : ascii) : bool :=
  let n := nat_of_ascii a in
  (Nat.eqb n 32 || Nat.eqb n 9 || Nat.eqb n 10 || Nat.eqb n 13)%bool.

Fixpoint skip_ws (s : string) : string :=
  match s with
  | EmptyString => EmptyString
  | String a r => if is_json_ws a then skip_ws r else s
  end.

(** The text after an opening quote, up to the closing one. *)
Fixpoint parse_string_body (s : string) : option (string * string) :=
  match s with
  | EmptyString => None
  | String a r =>
      if Ascii.eqb a dquote then Some (EmptyString, r)
      else if Ascii.eqb a backslash then
        match r with
        | String e r1 =>
            let simple (c : ascii) :=
              match parse_string_body r1 with
              | Some (str, rest) => Some (String c str, rest)
              | None => None
              end in
            if Ascii.eqb e dquote then simple dquote
            else if Ascii.eqb e backslash then simple backslash
            else if Ascii.eqb e "/" then simple "/"
            else if Ascii.eqb e "b" then simple (ascii_of_nat 8)
            else if Ascii.eqb e "t" then simple (ascii_of_nat 9)
            else if Ascii.eqb e "n" then simple (ascii_of_nat 10)
            else if Ascii.eqb e "f" then simple (ascii_of_nat 12)
            else if Ascii.eqb e "r" then simple (ascii_of_nat 13)
            else if Ascii.eqb e "u" then
              match r1 with
              | String h1 (String h2 (String h3 (String h4 r2))) =>
                  match hex_value h1, hex_value h2,
                        hex_value h3, hex_value h4 with
                  | Some 0%nat, Some 0%nat, Some x, Some y =>
                      match parse_string_body r2 with
                      | Some (str, rest) =>
                          Some (String (ascii_of_nat (16 * x + y)) str, rest)
                      | None => None
                      end
                  | _, _, _, _ => None
                  end
              | _ => None
              end
            else None
        | EmptyString => None
        end
      else if Nat.ltb (nat_of_ascii a) 32 then None
      else
        match parse_string_body r with
        | Some (str, rest) => Some (String a str, rest)
        | None => None
        end
  end.

Definition is_digit (a : ascii) : bool :=
  let n := nat_of_ascii a in (Nat.leb 48 n && Nat.leb n 57)%bool.

(** The longest prefix made of digits, and what follows it. *)
Fixpoint span_digits (s : string) : string * string :=
  match s with
  | EmptyString => (EmptyString, EmptyString)
  | String a r =>
      if is_digit a
      then let (ds, rest) := span_digits r in (String a ds, rest)
      else (EmptyString, s)
  end.

Definition parse_num (s : string) : option (Z * string) :=
  match s with
  | String a r =>
      let (txt, rest) :=
        if Ascii.eqb a "-"
        then let (ds, rest) := span_digits r in (String a ds, rest)
        else span_digits s in
      match NilZero.int_of_string txt with
      | Some d => Some (Z.of_int d, rest)
      | None => None
      end
  | EmptyString => None
  end.

Fixpoint strip_prefix (p s : string) : option string :=
  match p, s with
  | EmptyString, _ => Some s
  | String a p', String b s' =>
      if Ascii.eqb a b then strip_prefix p' s' else None
  | String _ _, EmptyString => None
  end.

Fixpoint parse_value (fuel : nat) (s : string) : option (json * string) :=
  match fuel with
  | O => None
  | S f =>
      match skip_ws s with
      | EmptyString => None
      | String c r =>
          if Ascii.eqb c dquote then
            match parse_string_body r with
            | Some (str, rest) => Some (JStr str, rest)
            | None => None
            end
          else if Ascii.eqb c "[" then
            match skip_ws r with
            | String c' r' =>
                if Ascii.eqb c' "]" then Some (JArr [], r')
                else
                  match parse_elements f r with
                  | Some (l, rest) => Some (JArr l, rest)
                  | None => None
                  end
            | EmptyString => None
            end
          else if Ascii.eqb c "{" then
            match skip_ws r with
            | String c' r' =>
                if Ascii.eqb c' "}" then Some (JObj [], r')
                else
                  match parse_members f r with
                  | Some (kv, rest) => Some (JObj kv, rest)
                  | None => None
                  end
            | EmptyString => None
            end
          else if Ascii.eqb c "n" then
            match strip_prefix "ull" r with
            | Some rest => Some (JNull, rest)
            | None => None
            end
          else if Ascii.eqb c "t" then
            match strip_prefix "rue" r with
            | Some rest => Some (JBool true, rest)
            | None => None
            end
          else if Ascii.eqb c "f" then
            match strip_prefix "alse" r with
            | Some rest => Some (JBool false, rest)
            | None => None
            end
          else
            match parse_num (String c r) with
            | Some (z, rest) => Some (JNum z, rest)
            | None => None
            end
      end
  end

with parse_elements (fuel : nat) (s : string)
  : option (list json * string) :=
  match fuel with
  | O => None
  | S f =>
      match parse_value f s with
      | Some (v, r) =>
          match skip_ws r with
          | String c r' =>
              if Ascii.eqb c "," then
                match parse_elements f r' with
                | Some (vs, rest) => Some (v :: vs, rest)
                | None => None
                end
              else if Ascii.eqb c "]" then Some ([v], r')
              else None
          | EmptyString => None
          end
      | None => None
      end
  end

with parse_members (fuel : nat) (s : string)
  : option (list (string * json) * string) :=
  match fuel with
  | O => None
  | S f =>
      match skip_ws s with
      | String q r0 =>
          if Ascii.eqb q dquote then
            match parse_string_body r0 with
            | Some (k, r1) =>
                match skip_ws r1 with
                | String c1 r2 =>
                    if Ascii.eqb c1 ":" then
                      match parse_value f r2 with
                      | Some (v, r3) =>
                          match skip_ws r3 with
                          | String c r' =>
                              if Ascii.eqb c "," then
                                match parse_members f r' with
                                | Some (kv, rest) => Some ((k, v) :: kv, rest)
                                | None => None
                                end
                              else if Ascii.eqb c "}" then Some ([(k, v)], r')
                              else None
                          | EmptyString => None
                          end
                      | None => None
                      end
                    else None
                | EmptyString => None
                end
            | None => None
            end
          else None
      | EmptyString => None
      end
  end.

(** The whole text must be one value, white space around it allowed. *)
Definition parse (s : string) : option json :=
  match parse_value (S (String.length s)) s with
  | Some (v, rest) =>
      match skip_ws rest with
      | EmptyString => Some v
      | String _ _ => None
      end
  | None => None
  end.

(** What follows a number must not be a digit. *)
Definition ends_number (rest : string) : Prop :=
  match rest with
  | EmptyString => True
  | String a _ => is_digit a = false
  end.

(** The texts of the elements of an array and of the members of an
    object, as [stringify] writes them. *)
Definition print_elems : list json -> string :=
  fix elems (l : list json) : string :=
    match l with
    | [] => EmptyString
    | [x] => stringify x
    | x :: rest => (stringify x ++ "," ++ elems rest)%string
    end.

Definition print_members : list (string * json) -> string :=
  fix members (kv : list (string * json)) : string :=
    match kv with
    | [] => EmptyString
    | [(k, x)] => (print_string k ++ ":" ++ stringify x)%string
    | (k, x) :: rest =>
        (print_string k ++ ":" ++ stringify x ++ "," ++ members rest)%string
    end.

(** Fuel that is enough to read a value back. *)
Fixpoint fuelV (v : json) : nat :=
  match v with
  | JArr l =>
      S ((fix go (l : list json) : nat :=
            match l with
            | [] => 0%nat
            | x :: r => S (fuelV x + go r)
            end) l)
  | JObj kv =>
      S ((fix go (kv : list (string * json)) : nat :=
            match kv with
            | [] => 0%nat
            | (_, x) :: r => S (fuelV x + go r)
            end) kv)
  | _ => 1%nat
  end.

Definition fuelE : list json -> nat :=
  fix go (l : list json) : nat :=
    match l with
    | [] => 0%nat
    | x :: r => S (fuelV x + go r)
    end.

Definition fuelM : list (string * json) -> nat :=
  fix go (kv : list (string * json)) : nat :=
    match kv with
    | [] => 0%nat
    | (_, x) :: r => S (fuelV x + go r)
    end.

(** A character a value can start with: no white space, no closing
    bracket. *)
Definition value_head (c : ascii) : bool :=
  negb (is_json_ws c) && negb (Ascii.eqb c "]") && negb (Ascii.eqb c "}").

Definition num_head (c : ascii) : bool := Ascii.eqb c "-" || is_digit c.

(** A value is read back from its text, whatever follows the text, as
    long as no digit follows a number. *)
Definition reads_back (v : json) : Prop :=
  forall n rest,
    (fuelV v <= n)%nat -> ends_number rest ->
    parse_value n (stringify v ++ rest) = Some (v, rest).

End RefJSON.

(* ================================================================== *)
(** ** The store's operations, as the specification names them *)

Inductive Op : Type :=
| Add (rawText : string)
| Remove (id : json)
| Toggle (id : json)
| Edit (id : json) (rawText : string).

(** What the view does for each of them: [add] types the text into the
    input, then clicks the button. *)
Definition events_of (op : Op) : list Event :=
  match op with
  | Add rawText => [Typing rawText; ClickAdd]
  | Remove id => [ClickDelete id]
  | Toggle id => [ClickToggle id]
  | Edit id rawText => [SaveEdit id rawText]
  end.

(** A task whose fields have the types of the data model: a non-zero
    number, a non-empty string, a boolean, a non-zero number. *)
Definition well_formed (t : Todo) : bool :=
  match todo_id t, todo_text t, todo_completed t, todo_createdAt t with
  | JNum i, JStr x, JBool _, JNum c =>
      negb (i =? 0) && negb (String.eqb x "") && negb (c =? 0)
  | _, _, _, _ => false
  end.


Definition has_id (id : json) (todo : Todo) : bool :=
  strict_eq (todo_id todo) id.

Definition ids (l : list Todo) : list json := map todo_id l.

(** [todo.key] on an entry that is not [null]. *)
Definition prop (key : string) (entry : json) : option json :=
  match entry with
  | JObj kv => lookup key kv
  | _ => None
  end.

(** The empty component over an empty slot. *)
Definition empty_state (cap : nat) (c : Clock) : State :=
  mkState [] "" [] (mkStorage None cap) [] c false.

Section Operations.

Variable JSON_stringify : json -> string.

Definition apply_op (s : State) (op : Op) : State :=
  run JSON_stringify s (events_of op).

Definition apply_ops (s : State) (ops : list Op) : State :=
  fold_left apply_op ops s.

Definition add (rawText : string) (s : State) : State :=
  apply_op s (Add rawText).

Definition edit (id : json) (rawText : string) (s : State) : State :=
  apply_op s (Edit id rawText).

Definition toggle (id : json) (s : State) : State :=
  apply_op s (Toggle id).

Definition remove (id : json) (s : State) : State :=
  apply_op s (Remove id).

End Operations.

(* ================================================================== *)
(** ** Vocabulary of the properties *)

(** Induction on a value, with the hypothesis for the members of an array
    and of an object. *)
Definition json_ind'
  (P : json -> Prop)
  (Hnull : P JNull)
  (Hbool : forall b, P (JBool b))
  (Hnum : forall z, P (JNum z))
  (Hstr : forall x, P (JStr x))
  (Harr : forall l, Forall P l -> P (JArr l))
  (Hobj : forall kv, Forall (fun p => P (snd p)) kv -> P (JObj kv))
  : forall v, P v :=
  fix F (v : json) : P v :=
    match v with
    | JNull => Hnull
    | JBool b => Hbool b
    | JNum z => Hnum z
    | JStr x => Hstr x
    | JArr l =>
        Harr l ((fix G (l : list json) : Forall P l :=
                   match l with
                   | [] => Forall_nil P
                   | x :: r => Forall_cons x (F x) (G r)
                   end) l)
    | JObj kv =>
        Hobj kv ((fix G (kv : list (string * json))
                  : Forall (fun p => P (snd p)) kv :=
                    match kv with
                    | [] => Forall_nil _
                    | p :: r => Forall_cons p (F (snd p)) (G r)
                    end) kv)
    end.

(** The first render of the component over a slot. *)
Definition loaded (JSON_parse : string -> option json)
           (st : Storage) (c : Clock) : list Todo :=
  fst (loadTodosFromStorage JSON_parse st c).

(** The repair of [createdAt] as the specification words it: an entry of
    a stored non-empty array that has no [createdAt] yields, at its place,
    a task whose [createdAt] is the entry's [id], or a reading of the clock
    when the entry has no [id] either. *)
Definition createdAt_repaired_from_id
           (JSON_parse : string -> option json)
           (st : Storage) (c : Clock) : Prop :=
  forall s l,
    getItem st = Some s -> JSON_parse s = Some (JArr l) -> l <> [] ->
    forall k e,
      nth_error l k = Some e -> prop "createdAt" e = None ->
      exists t,
        nth_error (loaded JSON_parse st c) k = Some t
        /\ match prop "id" e with
           | Some i => todo_createdAt t = i
           | None => exists n, todo_createdAt t = JNum (readings c n)
           end.




Definition blank (rawText : string) : bool := String.eqb (trim rawText) "".

(** The callbacks of the two [map]s, lines 107 and 119. *)
Definition toggled_task (id : json) (todo : Todo) : Todo :=
  if strict_eq (todo_id todo) id
  then mkTodo (todo_id todo) (todo_text todo)
              (js_not (todo_completed todo)) (todo_createdAt todo)
  else todo.

Definition edited_task (id : json) (trimmedText : string) (todo : Todo)
  : Todo :=
  if strict_eq (todo_id todo) id
  then mkTodo (todo_id todo) (JStr trimmedText)
              (todo_completed todo) (todo_createdAt todo)
  else todo.

(** The id the next successful add will take. *)
Definition next_id (s : State) : json :=
  JNum (readings (clock s) (calls (clock s))).

(** A clock whose every reading is later than the one before. *)
Definition increasing (c : Clock) : Prop :=
  forall m n, (m < n)%nat -> readings c m < readings c n.

(** The task the next successful add of [rawText] will append. *)
Definition added_task (s : State) (rawText : string) : Todo :=
  mkTodo (next_id s) (JStr (trim rawText)) (JBool false)
         (JNum (readings (clock s) (S (calls (clock s))))).

(** Numbers of add and of delete operations in a sequence. *)
Fixpoint count_adds (ops : list Op) : nat :=
  match ops with
  | [] => 0
  | Add _ :: rest => S (count_adds rest)
  | _ :: rest => count_adds rest
  end.

Fixpoint count_deletes (ops : list Op) : nat :=
  match ops with
  | [] => 0
  | Remove _ :: rest => S (count_deletes rest)
  | _ :: rest => count_deletes rest
  end.

(** Number of adds whose text is not blank. *)
Fixpoint adds_applied (ops : list Op) : nat :=
  match ops with
  | [] => 0
  | Add a :: rest => (if blank a then 0 else 1) + adds_applied rest
  | _ :: rest => adds_applied rest
  end.

(** The text the edits of [id] in [ops] leave, starting from [cur]: the
    latest edit whose text is not blank wins. *)
Fixpoint latest_text (id : json) (ops : list Op) (cur : json) : json :=
  match ops with
  | [] => cur
  | Edit j x :: rest =>
      latest_text id rest
        (if strict_eq id j && negb (blank x) then JStr (trim x) else cur)
  | _ :: rest => latest_text id rest cur
  end.

(** The flag the toggles of [id] in [ops] leave, starting from [cur]. *)
Fixpoint toggled (id : json) (ops : list Op) (cur : json) : json :=
  match ops with
  | [] => cur
  | Toggle j :: rest =>
      toggled id rest (if strict_eq id j then js_not cur else cur)
  | _ :: rest => toggled id rest cur
  end.

(** Whether [ops] deletes [id]. *)
Fixpoint deleted (id : json) (ops : list Op) : bool :=
  match ops with
  | [] => false
  | Remove j :: rest => strict_eq id j || deleted id rest
  | _ :: rest => deleted id rest
  end.

(** [l1] is [l2] with some elements left out, order kept. *)
Inductive subseq {A : Type} : list A -> list A -> Prop :=
| subseq_nil : subseq [] []
| subseq_skip : forall x l1 l2, subseq l1 l2 -> subseq l1 (x :: l2)
| subseq_take : forall x l1 l2, subseq l1 l2 -> subseq (x :: l1) (x :: l2).

Section Traces.

Variable JSON_stringify : json -> string.

(** Number of deletes that name an id the list holds when they run. *)
Fixpoint deletes_applied (s : State) (ops : list Op) : nat :=
  match ops with
  | [] => 0
  | op :: rest =>
      (match op with
       | Remove id => if existsb (has_id id) (todos s) then 1 else 0
       | _ => 0
       end + deletes_applied (apply_op JSON_stringify s op) rest)%nat
  end.

(** The ids the adds of a run hand out, in the order of the adds. *)
Fixpoint added_ids (s : State) (ops : list Op) : list json :=
  match ops with
  | [] => []
  | op :: rest =>
      match op with
      | Add a => if blank a then [] else [next_id s]
      | _ => []
      end
      ++ added_ids (apply_op JSON_stringify s op) rest
  end.

(** Ids in use: those of the list stay among them, and every id an add
    hands out is new to them. *)
Definition tracks (used : list json) (s : State) (ops : list Op) : Prop :=
  incl (ids (todos s)) used
  /\ NoDup (ids (todos s))
  /\ NoDup (used ++ added_ids s ops).

Definition used_after (used : list json) (s : State) (op : Op) : list json :=
  match op with
  | Add a => if blank a then used else used ++ [next_id s]
  | _ => used
  end.

(** The count the specification states: the length of the list is the
    number of adds minus the number of deletes. *)
Definition length_is_adds_minus_deletes (s : State) (ops : list Op) : Prop :=
  Z.of_nat (List.length (todos (apply_ops JSON_stringify s ops))) =
  Z.of_nat (List.length (todos s))
  + Z.of_nat (count_adds ops) - Z.of_nat (count_deletes ops).

End Traces.

(* ================================================================== *)
(** ** What the component shows *)

(** Lines 143-144 and 203. *)
Definition totalTasks (s : State) : nat := List.length (todos s).

Definition completedTasks (s : State) : nat :=
  List.length (filter is_completed (todos s)).

Definition remainingTasks (s : State) : nat :=
  List.length (filter (fun todo => negb (is_completed todo)) (todos s)).

(** Line 152: the counter; line 179: the message of the empty list;
    lines 200 and 205: the footer and, inside it, the button that calls
    [clearCompleted]. *)
Definition showsCounter (s : State) : bool := Nat.ltb 0 (totalTasks s).

Definition showsEmptyMessage (s : State) : bool :=
  Nat.eqb (List.length (todos s)) 0.

Definition showsFooter (s : State) : bool :=
  Nat.ltb 0 (List.length (todos s)).

Definition showsClearButton (s : State) : bool :=
  showsFooter s && Nat.ltb 0 (completedTasks s).

(* ================================================================== *)
(** ** A row of the list ([TodoItem])

    The state of a row is [wasCompleted], [isEditing] and [editText].  The
    orbs of the animation carry floating-point positions and are left out,
    except for their number. *)

Record Item : Type := mkItem {
  wasCompleted : json;      (* useState(todo.completed) *)
  isEditing : bool;         (* useState(false) *)
  editText : json           (* useState(todo.text) *)
}.

Definition mountItem (todo : Todo) : Item :=
  mkItem (todo_completed todo) false (todo_text todo).

(** Where a click on the row landed, as [e.target.closest] tells. *)
Inductive Target : Type :=
| OnDeleteButton
| OnEditButton
| OnCheckbox
| Elsewhere.

(** Lines 343-355.  A handler of the row gives the new state of the row
    and the call it makes to the component, if any. *)
Definition handleItemClick (todo : Todo) (target : Target) (it : Item)
  : Item * option Event :=
  match target with
  | OnDeleteButton => (it, None)
  | OnEditButton => (it, None)
  | OnCheckbox => (it, None)
  | Elsewhere =>
      if isEditing it then (it, None)
      else (it, Some (ClickToggle (todo_id todo)))
  end.

(** Lines 360-364. *)
Definition handleEditClick (todo : Todo) (it : Item) : Item * option Event :=
  (mkItem (wasCompleted it) true (todo_text todo), None).

(** Lines 369-376.  [editText.trim()] throws when the text is not a
    string. *)
Definition handleSaveEdit (todo : Todo) (it : Item)
  : completion (Item * option Event) :=
  match editText it with
  | JStr x =>
      let trimmedText := trim x in
      Normal (mkItem (wasCompleted it) false (editText it),
              if String.eqb trimmedText "" then None
              else Some (SaveEdit (todo_id todo) trimmedText))
  | _ => Throw
  end.

(** Lines 381-385. *)
Definition handleCancelEdit (todo : Todo) (it : Item)
  : Item * option Event :=
  (mkItem (wasCompleted it) false (todo_text todo), None).

(** Lines 390-398. *)
Definition handleEditKeyDown (todo : Todo) (key : string) (it : Item)
  : completion (Item * option Event) :=
  if String.eqb key "Enter" then handleSaveEdit todo it
  else if String.eqb key "Escape" then Normal (handleCancelEdit todo it)
  else Normal (it, None).

(** Line 463: typing in the input of the editor. *)
Definition changeEditText (v : string) (it : Item) : Item :=
  mkItem (wasCompleted it) (isEditing it) (JStr v).

(** Line 241: the test of the effect. *)
Definition justCompleted (todo : Todo) (it : Item) : bool :=
  truthy (todo_completed todo) && negb (truthy (wasCompleted it)).

(** One run of the effect of lines 240-307: whether it celebrates (it
    shows the orbs, and plays the sound when the audio element is there),
    and the state it leaves (line 306). *)
Definition completionEffect (todo : Todo) (it : Item) : bool * Item :=
  (justCompleted todo it,
   mkItem (todo_completed todo) (isEditing it) (editText it)).

(** What follows a render of the row: the effect runs, and runs once more
    when it changed [wasCompleted], which is one of its dependencies.  The
    number counts the runs that celebrated. *)
Definition settleItem (todo : Todo) (it : Item) : nat * Item :=
  let (f1, it1) := completionEffect todo it in
  if strict_eq (wasCompleted it) (wasCompleted it1)
  then ((if f1 then 1 else 0)%nat, it1)
  else
    let (f2, it2) := completionEffect todo it1 in
    (((if f1 then 1 else 0) + (if f2 then 1 else 0))%nat, it2).

(** The life of a row: mounted with a task, then rendered with each later
    version of the task. *)
Fixpoint rerenders (it : Item) (versions : list Todo) : nat * Item :=
  match versions with
  | [] => (0%nat, it)
  | todo :: rest =>
      let (n, it1) := settleItem todo it in
      let (m, it2) := rerenders it1 rest in
      ((n + m)%nat, it2)
  end.

Definition celebrations (todo : Todo) (versions : list Todo) : nat :=
  let (n, it) := settleItem todo (mountItem todo) in
  (n + fst (rerenders it versions))%nat.

(** The number of places in a sequence of flags where a falsy flag is
    followed by a truthy one. *)
Fixpoint rising_edges (prev : json) (flags : list json) : nat :=
  match flags with
  | [] => 0
  | c :: rest =>
      ((if negb (truthy prev) && truthy c then 1 else 0)
       + rising_edges c rest)%nat
  end.

(** Line 274: [Math.floor(Math.random() * 4) + 5], for a draw of
    [Math.random()] that is the fraction [p / q].  Every floating-point
    number is such a fraction, and the product by 4 and the floor are
    exact. *)
Definition orbCount (p q : Z) : Z := (4 * p) / q + 5.

Section Formatting.

(** [date.toLocaleDateString('en-US', ...)] of lines 331-335 for a valid
    date, with or without the year, and [getFullYear]: the calendar belongs
    to the platform. *)
Variable toLocaleDateString : Z -> bool -> string.
Variable getFullYear : Z -> Z.

(** The largest time value of a [Date], in milliseconds on either side of
    1970. It is below 2^53: time values and their differences are whole
    numbers on which the floating-point arithmetic of lines 318-327 agrees
    with that of the integers wherever a branch depends on it. *)
Definition MAX_TIME : Z := 8640000000000000.

(** [new Date(value)] for a number: the time value, or [None] for the
    Invalid Date that a number out of range gives. *)
Definition new_Date (value : Z) : option Z :=
  if Z.abs value <=? MAX_TIME then Some value else None.

(** [now - date], line 318: [NaN], here [None], for an invalid date. *)
Definition elapsed (now : Z) (date : option Z) : option Z :=
  match date with
  | Some t => Some (now - t)
  | None => None
  end.

(** [Math.floor(x / k)], lines 318, 324 and 327; [NaN] stays [NaN]. *)
Definition floor_div (x : option Z) (k : Z) : option Z :=
  match x with
  | Some a => Some (a / k)
  | None => None
  end.

(** [x < k] and [x > k]: every comparison with [NaN] is false. *)
Definition less (x : option Z) (k : Z) : bool :=
  match x with
  | Some a => a <? k
  | None => false
  end.

Definition greater (x : option Z) (k : Z) : bool :=
  match x with
  | Some a => k <? a
  | None => false
  end.

(** A number inside a template literal, lines 325 and 328. *)
Definition number_text (x : option Z) : string :=
  match x with
  | Some a => RefJSON.print_num a
  | None => "NaN"
  end.

(** The [s] of the plural, lines 325 and 328. *)
Definition plural (n : option Z) : string :=
  if greater n 1 then "s" else "".

(** [date.getFullYear() !== now.getFullYear()], line 334: the year of an
    invalid date is [NaN], which differs from every year. *)
Definition year_differs (date : option Z) (now : Z) : bool :=
  match date with
  | Some t => negb (getFullYear t =? getFullYear now)
  | None => true
  end.

(** [date.toLocaleDateString] of line 331, which for an invalid date is the
    string Invalid Date whatever the options. *)
Definition Date_toLocaleDateString (date : option Z) (year : bool)
  : string :=
  match date with
  | Some t => toLocaleDateString t year
  | None => "Invalid Date"
  end.

(** Lines 313-337, for a timestamp that is a number; [now] is the time
    value of the [new Date()] of line 317. *)
Definition formatTimestamp (timestamp now : Z) : string :=
  if timestamp =? 0 then ""
  else
    let date := new_Date timestamp in
    let diffInSeconds := floor_div (elapsed now date) 1000 in
    if less diffInSeconds 60 then "Just now"
    else if less diffInSeconds 3600 then
      let minutes := floor_div diffInSeconds 60 in
      (number_text minutes ++ " minute" ++ plural minutes
       ++ " ago")%string
    else if less diffInSeconds 86400 then
      let hours := floor_div diffInSeconds 3600 in
      (number_text hours ++ " hour" ++ plural hours ++ " ago")%string
    else
      Date_toLocaleDateString date (year_differs date now).

End Formatting.

(* ================================================================== *)
(** ** Vocabulary of the further properties *)

(** The flag of a task is a boolean. *)
Definition boolean_flag (t : Todo) : bool :=
  match todo_completed t with
  | JBool _ => true
  | _ => false
  end.




(** The call a handler of a row makes, run by the component. *)
Definition forward (JSON_stringify : json -> string)
           (call : option Event) (s : State) : State :=
  match call with
  | Some e => step JSON_stringify s e
  | None => s
  end.



(** The ids of a list were all read from the clock of the state, before
    now. *)
Definition ids_issued (s : State) (l : list Todo) : Prop :=
  forall t, In t l ->
            exists k, (k < calls (clock s))%nat
                      /\ todo_id t = JNum (readings (clock s) k).

(** The ids of the list, and of every list a pending removal holds, are
    pairwise distinct and were read from the clock. *)
Definition ids_unique (s : State) : Prop :=
  NoDup (ids (todos s))
  /\ ids_issued s (todos s)
  /\ forall tm captured,
       In tm (timers s) -> timer_callback tm = RemoveCompleted captured ->
       NoDup (ids captured) /\ ids_issued s captured.

(* ================================================================== *)
(** ** Sample data *)

(** A slot that holds the text of a value, written by the reference
    printer. *)
Definition stored (v : json) : Storage :=
  mkStorage (Some (RefJSON.stringify v)) 4096.

Definition entry_without_createdAt : json :=
  JObj [("id", JNum 5); ("text", JStr "x"); ("completed", JBool false)].

Definition entry_with_zero_id : json :=
  JObj [("id", JNum 0); ("text", JStr "x"); ("completed", JBool false)].


Definition sample_tasks : list Todo :=
  [ mkTodo (JNum 1700000000000) (JStr "Buy milk") (JBool true)
           (JNum 1700000000000);
    mkTodo (JNum 1700000000500) (JStr "Call Ann") (JBool false)
           (JNum 1700000000501) ].

Definition sample_clock : Clock := ticking 1700000001000.

Definition sample_state : State :=
  mkState sample_tasks "" [] (mkStorage None 4096) [] sample_clock false.

Definition sample_events : list Event :=
  [ Typing " Water plants "; ClickAdd;
    ClickToggle (JNum 1700000001000); ClickClear;
    SaveEdit (JNum 5) "y"; TimerFires 1 ].

Definition sample_row : Item := mkItem (JBool false) false (JStr "Call Ann").

Definition sample_task : Todo :=
  mkTodo (JNum 1700000000500) (JStr "Call Ann") (JBool false)
         (JNum 1700000000501).

Definition sample_ops : list Op :=
  [ Add "A"; Edit (JNum 1700000001000) "  A2 "; Add "B"; Add "   ";
    Toggle (JNum 1700000001002); Remove (JNum 1700000001000);
    Remove (JNum 7) ].

(* ================================================================== *)
(** ** Basic facts *)

Section Facts.

Variable JSON_stringify : json -> string.

Lemma todos_render s : todos (render JSON_stringify s) = todos s.
Proof. unfold render. destruct (todosSet s); reflexivity. Qed.

Lemma clock_render s : clock (render JSON_stringify s) = clock s.
Proof. unfold render. destruct (todosSet s); reflexivity. Qed.

Lemma timers_render s : timers (render JSON_stringify s) = timers s.
Proof. unfold render. destruct (todosSet s); reflexivity. Qed.

Lemma exitingIds_render s :
  exitingIds (render JSON_stringify s) = exitingIds s.
Proof. unfold render. destruct (todosSet s); reflexivity. Qed.

Lemma inputValue_render s :
  inputValue (render JSON_stringify s) = inputValue s.
Proof. unfold render. destruct (todosSet s); reflexivity. Qed.

Lemma todos_step s e : todos (step JSON_stringify s e) = todos (handle e s).
Proof. apply todos_render. Qed.

Lemma clock_step s e : clock (step JSON_stringify s e) = clock (handle e s).
Proof. apply clock_render. Qed.

Lemma timers_step s e :
  timers (step JSON_stringify s e) = timers (handle e s).
Proof. apply timers_render. Qed.

Lemma exitingIds_step s e :
  exitingIds (step JSON_stringify s e) = exitingIds (handle e s).
Proof. apply exitingIds_render. Qed.

Lemma inputValue_step s e :
  inputValue (step JSON_stringify s e) = inputValue (handle e s).
Proof. apply inputValue_render. Qed.

Lemma run_app s es1 es2 :
  run JSON_stringify s (es1 ++ es2) =
  run JSON_stringify (run JSON_stringify s es1) es2.
Proof. apply fold_left_app. Qed.

Lemma todos_addTodo s :
  todos (addTodo s) =
  if String.eqb (trim (inputValue s)) ""
  then todos s
  else todos s ++
       [mkTodo (JNum (readings (clock s) (calls (clock s))))
               (JStr (trim (inputValue s))) (JBool false)
               (JNum (readings (clock s) (S (calls (clock s)))))].
Proof.
  unfold addTodo. destruct (String.eqb (trim (inputValue s)) ""); reflexivity.
Qed.

Lemma todos_add rawText s :
  todos (add JSON_stringify rawText s) =
  if String.eqb (trim rawText) ""
  then todos s
  else todos s ++
       [mkTodo (JNum (readings (clock s) (calls (clock s))))
               (JStr (trim rawText)) (JBool false)
               (JNum (readings (clock s) (S (calls (clock s)))))].
Proof.
  unfold add, apply_op. cbn [events_of run fold_left].
  rewrite todos_step. cbn [handle]. rewrite todos_addTodo.
  rewrite inputValue_step, clock_step, todos_step. reflexivity.
Qed.

Lemma clock_add rawText s :
  clock (add JSON_stringify rawText s) =
  if String.eqb (trim rawText) ""
  then clock s
  else mkClock (readings (clock s)) (S (S (calls (clock s)))).
Proof.
  unfold add, apply_op. cbn [events_of run fold_left].
  rewrite clock_step. cbn [handle]. unfold addTodo.
  rewrite inputValue_step. cbn [handle setInputValue inputValue].
  destruct (String.eqb (trim rawText) "").
  - rewrite clock_step. reflexivity.
  - cbn. rewrite clock_step. reflexivity.
Qed.

Lemma todos_edit id rawText s :
  todos (edit JSON_stringify id rawText s) =
  if String.eqb (trim rawText) ""
  then todos s
  else map (fun todo =>
              if has_id id todo
              then mkTodo (todo_id todo) (JStr (trim rawText))
                          (todo_completed todo) (todo_createdAt todo)
              else todo) (todos s).
Proof.
  unfold edit, apply_op. cbn [events_of run fold_left].
  rewrite todos_step. cbn [handle]. unfold updateTodo.
  destruct (String.eqb (trim rawText) ""); reflexivity.
Qed.

Lemma todos_toggle id s :
  todos (toggle JSON_stringify id s) =
  map (fun todo =>
         if has_id id todo
         then mkTodo (todo_id todo) (todo_text todo)
                     (js_not (todo_completed todo)) (todo_createdAt todo)
         else todo) (todos s).
Proof.
  unfold toggle, apply_op. cbn [events_of run fold_left].
  rewrite todos_step. reflexivity.
Qed.

Lemma todos_remove id s :
  todos (remove JSON_stringify id s) =
  filter (fun todo => negb (has_id id todo)) (todos s).
Proof.
  unfold remove, apply_op. cbn [events_of run fold_left].
  rewrite todos_step. reflexivity.
Qed.

Lemma clock_apply_op_other s op :
  (forall a, op <> Add a) -> clock (apply_op JSON_stringify s op) = clock s.
Proof.
  intros H. destruct op as [a | i | i | i x]; unfold apply_op;
    cbn [events_of run fold_left]; rewrite clock_step; cbn [handle].
  - exfalso. apply (H a). reflexivity.
  - reflexivity.
  - reflexivity.
  - unfold updateTodo. destruct (String.eqb (trim x) ""); reflexivity.
Qed.

End Facts.

(* ================================================================== *)
(** ** Trimming *)

Lemma trimEnd_idempotent (s : string) : trimEnd (trimEnd s) = trimEnd s.
Proof.
  induction s as [| a r IH]; cbn.
  - reflexivity.
  - destruct (trimEnd r) as [| b r'] eqn:E.
    + destruct (is_ws a) eqn:W; cbn; [reflexivity |]. rewrite W. reflexivity.
    + cbn [trimEnd]. cbn [trimEnd] in IH. rewrite IH. reflexivity.
Qed.

Lemma trimStart_head (s : string) :
  match trimStart s with
  | EmptyString => True
  | String a _ => is_ws a = false
  end.
Proof.
  induction s as [| a r IH]; cbn.
  - exact I.
  - destruct (is_ws a) eqn:W; [exact IH | exact W].
Qed.

Lemma trimStart_trimEnd (s : string) :
  match s with
  | EmptyString => True
  | String a _ => is_ws a = false
  end ->
  trimStart (trimEnd s) = trimEnd s.
Proof.
  destruct s as [| a r]; intros H; cbn [trimEnd].
  - reflexivity.
  - destruct (trimEnd r) as [| b r']; rewrite ?H; cbn [trimStart];
      rewrite H; reflexivity.
Qed.

Lemma trim_idempotent (s : string) : trim (trim s) = trim s.
Proof.
  unfold trim.
  rewrite (trimStart_trimEnd (trimStart s) (trimStart_head s)).
  apply trimEnd_idempotent.
Qed.

Lemma all_ws_append (a b : string) :
  all_ws (a ++ b) = all_ws a && all_ws b.
Proof.
  induction a as [| x a IH]; cbn [append all_ws].
  - reflexivity.
  - rewrite IH. apply andb_assoc.
Qed.

(** What [trimStart] drops is white space. *)
Lemma trimStart_split (s : string) :
  exists l, s = (l ++ trimStart s)%string /\ all_ws l = true.
Proof.
  induction s as [| a r [l [E Hl]]]; cbn [trimStart].
  - exists EmptyString. split; reflexivity.
  - destruct (is_ws a) eqn:W.
    + exists (String a l). cbn [append all_ws]. rewrite <- E, W, Hl.
      split; reflexivity.
    + exists EmptyString. split; reflexivity.
Qed.

(** What [trimEnd] drops is white space. *)
Lemma trimEnd_split (s : string) :
  exists r, s = (trimEnd s ++ r)%string /\ all_ws r = true.
Proof.
  induction s as [| a s [r [E Hr]]]; cbn [trimEnd].
  - exists EmptyString. split; reflexivity.
  - destruct (trimEnd s) as [| b t] eqn:T.
    + cbn [append] in E. subst r. destruct (is_ws a) eqn:W.
      * exists (String a s). cbn [append all_ws]. rewrite W, Hr.
        split; reflexivity.
      * exists s. split; [reflexivity | exact Hr].
    + exists r. split; [| exact Hr].
      change (String a s = String a (String b t ++ r)%string).
      f_equal. exact E.
Qed.

(** [trimEnd] leaves no white space at the end. *)
Lemma trimEnd_last (s : string) :
  match trimEnd s with
  | EmptyString => True
  | String a r => is_ws (last_char a r) = false
  end.
Proof.
  induction s as [| a s IH]; cbn [trimEnd].
  - exact I.
  - destruct (trimEnd s) as [| b t].
    + destruct (is_ws a) eqn:W; [exact I | exact W].
    + exact IH.
Qed.

(** [trimEnd] keeps a first character that is not white space. *)
Lemma trimEnd_head (a : ascii) (r : string) :
  is_ws a = false -> exists t, trimEnd (String a r) = String a t.
Proof.
  intros W. cbn [trimEnd]. destruct (trimEnd r) as [| b t].
  - rewrite W. exists EmptyString. reflexivity.
  - exists (String b t). reflexivity.
Qed.

Lemma trim_clean_ends (s : string) : clean_ends (trim s) = true.
Proof.
  unfold trim. pose proof (trimStart_head s) as Hh.
  destruct (trimStart s) as [| a r] eqn:E.
  - reflexivity.
  - destruct (trimEnd_head a r Hh) as [t Et].
    pose proof (trimEnd_last (String a r)) as Hl. rewrite Et in *.
    unfold clean_ends. rewrite Hh, Hl. reflexivity.
Qed.

(** The input is its trimmed text between two runs of white space. *)
Lemma trim_split (s : string) :
  exists l r,
    s = (l ++ trim s ++ r)%string /\ all_ws l = true /\ all_ws r = true.
Proof.
  destruct (trimStart_split s) as [l [El Hl]].
  destruct (trimEnd_split (trimStart s)) as [r [Er Hr]].
  exists l, r. unfold trim. rewrite <- Er, <- El. auto.
Qed.

Lemma trimStart_all_ws (s : string) : all_ws s = true -> trimStart s = "".
Proof.
  induction s as [| a r IH]; cbn [all_ws trimStart]; intros H.
  - reflexivity.
  - apply andb_prop in H. destruct H as [W H]. rewrite W. apply IH, H.
Qed.

(** The trimmed text is empty exactly when the input is white space
    only. *)
Lemma trim_blank (s : string) : String.eqb (trim s) "" = all_ws s.
Proof.
  destruct (all_ws s) eqn:A.
  - unfold trim. rewrite (trimStart_all_ws s A). reflexivity.
  - destruct (String.eqb_spec (trim s) "") as [E | _]; [| reflexivity].
    destruct (trim_split s) as [l [r [Es [Hl Hr]]]].
    rewrite E in Es. cbn [append] in Es.
    rewrite Es, all_ws_append, Hl, Hr in A. discriminate A.
Qed.

(* ================================================================== *)
(** ** add, edit and toggle *)

Section AddEditToggle.

Variable JSON_stringify : json -> string.

(** [map] seen position by position. *)
Lemma nth_error_map_some {A B} (f : A -> B) l k x :
  nth_error l k = Some x -> nth_error (map f l) k = Some (f x).
Proof.
  revert k. induction l as [| y l IH]; intros [| k] H; try discriminate.
  - inversion H. reflexivity.
  - cbn in *. auto.
Qed.

(** A [map] that touches only the elements a test selects is the identity
    when the test selects none. *)
Lemma map_if_none {A} (p : A -> bool) (f : A -> A) l :
  (forall x, In x l -> p x = false) ->
  map (fun x => if p x then f x else x) l = l.
Proof.
  induction l as [| y l IH]; intros H; cbn.
  - reflexivity.
  - rewrite (H y) by (left; reflexivity). f_equal. apply IH.
    intros x Hx. apply H. right. exact Hx.
Qed.

(** C4. For every input string, add(rawText) trims the input: the input
    is its trimmed text between two runs of white space, the trimmed text
    neither starts nor ends with white space, and it is empty exactly when
    the input holds white space only. When the trimmed text is empty the
    list is returned as it was (so for add of the empty string and add of
    three spaces). Otherwise the new list is the old one, every task as it
    was, followed by exactly one new task: its id is the clock reading taken
    first, its text the trimmed input (not empty), its completed flag false
    and its createdAt the clock reading taken next. So add of Buy milk
    between a TAB, spaces and a line feed appends a task with the text Buy
    milk. *)
Theorem add_appends_one_trimmed_task (rawText : string) (s : State) :
  todos (add JSON_stringify rawText s) =
    (if String.eqb (trim rawText) "" then todos s
     else todos s ++
          [mkTodo (JNum (readings (clock s) (calls (clock s))))
                  (JStr (trim rawText))
                  (JBool false)
                  (JNum (readings (clock s) (S (calls (clock s)))))])
  /\ todos (add JSON_stringify "" s) = todos s
  /\ todos (add JSON_stringify "   " s) = todos s
  /\ (exists l r,
         rawText = (l ++ trim rawText ++ r)%string
         /\ all_ws l = true /\ all_ws r = true)
  /\ clean_ends (trim rawText) = true
  /\ String.eqb (trim rawText) "" = all_ws rawText
  /\ todos (add JSON_stringify
                (String (ascii_of_nat 9)
                        ("  Buy milk " ++ String (ascii_of_nat 10) ""))
                s)
     = todos s ++
       [mkTodo (JNum (readings (clock s) (calls (clock s))))
               (JStr "Buy milk")
               (JBool false)
               (JNum (readings (clock s) (S (calls (clock s)))))].
Proof.
  split; [apply todos_add |].
  split; [rewrite todos_add; reflexivity |].
  split; [rewrite todos_add; reflexivity |].
  split; [apply trim_split |].
  split; [apply trim_clean_ends |].
  split; [apply trim_blank |].
  rewrite todos_add. reflexivity.
Qed.

(** C5. For every list, every id that is a primitive value (a number, a
    string, a boolean or null, for which the equality of the model is the
    === of line 119) and every input string, edit(id, rawText) trims the
    input. When the trimmed text is empty the list is returned as it was, so
    edit(id, empty string) leaves every text as it is. Otherwise the list
    keeps its length and, position by position, a task whose id matches gets
    the trimmed input as text and keeps its other fields, and every other
    task is unchanged; when no task has the id the list is unchanged. *)
Theorem edit_replaces_text_of_matching_task
        (id : json) (rawText : string) (s : State) :
  primitive id = true ->
  (trim rawText = "" -> todos (edit JSON_stringify id rawText s) = todos s)
  /\ todos (edit JSON_stringify id "" s) = todos s
  /\ (trim rawText <> "" ->
      List.length (todos (edit JSON_stringify id rawText s))
        = List.length (todos s)
      /\ (forall k todo,
             nth_error (todos s) k = Some todo ->
             nth_error (todos (edit JSON_stringify id rawText s)) k =
               Some (if strict_eq (todo_id todo) id
                     then mkTodo (todo_id todo) (JStr (trim rawText))
                                 (todo_completed todo) (todo_createdAt todo)
                     else todo))
      /\ ((forall todo, In todo (todos s) ->
                        strict_eq (todo_id todo) id = false) ->
          todos (edit JSON_stringify id rawText s) = todos s)).
Proof.
  intros _.
  split; [| split].
  - intros H. rewrite todos_edit, H. reflexivity.
  - rewrite todos_edit. reflexivity.
  - intros H. rewrite todos_edit.
    destruct (String.eqb_spec (trim rawText) "") as [E | _];
      [contradiction |].
    split; [| split].
    + apply length_map.
    + intros k todo Hk.
      apply (nth_error_map_some
               (fun todo =>
                  if has_id id todo
                  then mkTodo (todo_id todo) (JStr (trim rawText))
                              (todo_completed todo) (todo_createdAt todo)
                  else todo)).
      exact Hk.
    + intros Hnone. apply map_if_none. exact Hnone.
Qed.

(** C9. For every list and every id that is a primitive value (a number,
    a string, a boolean or null, for which the equality of the model is the
    === of line 107), toggle(id) keeps the length of the list
    and, position by position, keeps the id, the text and the createdAt of
    every task; the completed flag of a task whose id matches is negated
    (true becomes false and false becomes true) and that of every other task
    is unchanged; when no task has the id the list is unchanged. The input
    text, the exiting ids, the pending timeouts and the clock are untouched
    as well. *)
Theorem toggle_flips_completed_only (id : json) (s : State) :
  primitive id = true ->
  List.length (todos (toggle JSON_stringify id s)) = List.length (todos s)
  /\ (forall k todo,
         nth_error (todos s) k = Some todo ->
         exists todo',
           nth_error (todos (toggle JSON_stringify id s)) k = Some todo'
           /\ todo_id todo' = todo_id todo
           /\ todo_text todo' = todo_text todo
           /\ todo_createdAt todo' = todo_createdAt todo
           /\ todo_completed todo' =
                (if strict_eq (todo_id todo) id
                 then js_not (todo_completed todo)
                 else todo_completed todo))
  /\ (forall b, js_not (JBool b) = JBool (negb b))
  /\ ((forall todo, In todo (todos s) ->
                    strict_eq (todo_id todo) id = false) ->
      todos (toggle JSON_stringify id s) = todos s)
  /\ inputValue (toggle JSON_stringify id s) = inputValue s
  /\ exitingIds (toggle JSON_stringify id s) = exitingIds s
  /\ timers (toggle JSON_stringify id s) = timers s
  /\ clock (toggle JSON_stringify id s) = clock s.
Proof.
  intros _. rewrite todos_toggle.
  split; [| split; [| split; [| split]]].
  - apply length_map.
  - intros k todo Hk.
    eexists. split.
    + apply nth_error_map_some. exact Hk.
    + unfold has_id. destruct (strict_eq (todo_id todo) id); cbn; auto.
  - intros b. reflexivity.
  - intros Hnone. apply map_if_none. exact Hnone.
  - unfold toggle, apply_op. cbn [events_of run fold_left].
    rewrite inputValue_step, exitingIds_step, timers_step, clock_step.
    cbn. auto.
Qed.

End AddEditToggle.

(* ================================================================== *)
(** ** Strict equality *)

Lemma strict_eq_spec (a b : json) : strict_eq a b = true <-> a = b.
Proof.
  revert b. induction a as [| x | x | x | l IH | kv IH] using json_ind';
    intros [| y | y | y | l' | kv']; cbn;
    try (split; intros H; discriminate H).
  - tauto.
  - rewrite Bool.eqb_true_iff. split; intros H; [subst | inversion H]; auto.
  - rewrite Z.eqb_eq. split; intros H; [subst | inversion H]; auto.
  - rewrite String.eqb_eq. split; intros H; [subst | inversion H]; auto.
  - revert l'. induction IH as [| v l Hv _ IHl]; intros [| w l'];
      try (split; intros H; (discriminate H || reflexivity)).
    rewrite andb_true_iff, Hv, (IHl l').
    split.
    + intros [-> H]. inversion H. reflexivity.
    + intros H. inversion H. auto.
  - revert kv'. induction IH as [| [k v] kv Hv _ IHl]; intros [| [k' w] kv'];
      try (split; intros H; (discriminate H || reflexivity)).
    cbn in Hv.
    rewrite !andb_true_iff, Hv, String.eqb_eq, (IHl kv').
    split.
    + intros [[-> ->] H]. inversion H. reflexivity.
    + intros H. inversion H. auto.
Qed.

Lemma strict_eq_refl (a : json) : strict_eq a a = true.
Proof. apply strict_eq_spec. reflexivity. Qed.

Lemma strict_eq_false (a b : json) : strict_eq a b = false <-> a <> b.
Proof.
  rewrite <- strict_eq_spec. destruct (strict_eq a b); split; intros H.
  - discriminate.
  - exfalso. apply H. reflexivity.
  - intros H'. discriminate.
  - reflexivity.
Qed.

(* ================================================================== *)
(** ** clearCompleted and its deferred callback *)

Section ClearCompleted.

Variable JSON_stringify : json -> string.

Lemma clearCompleted_some s :
  existsb is_completed (todos s) = true ->
  clearCompleted s =
  setTimeout (RemoveCompleted (todos s)) EXIT_DELAY
    (setExitingIds (ids (filter is_completed (todos s))) s).
Proof.
  intros H. unfold clearCompleted.
  destruct (filter is_completed (todos s)) as [| t l] eqn:E.
  - apply existsb_exists in H. destruct H as [t [Hin Ht]].
    assert (Hf : In t (filter is_completed (todos s)))
      by (apply filter_In; split; assumption).
    rewrite E in Hf. destruct Hf.
  - reflexivity.
Qed.

Lemma clearCompleted_none s :
  existsb is_completed (todos s) = false -> clearCompleted s = s.
Proof.
  intros H. unfold clearCompleted.
  destruct (filter is_completed (todos s)) as [| t l] eqn:E.
  - reflexivity.
  - assert (Hf : In t (filter is_completed (todos s)))
      by (rewrite E; left; reflexivity).
    apply filter_In in Hf. destruct Hf as [Hin Ht].
    assert (Hex : existsb is_completed (todos s) = true)
      by (apply existsb_exists; exists t; split; assumption).
    rewrite H in Hex. discriminate.
Qed.

(** Firing a pending removal: the list becomes the captured list without
    its completed tasks, whatever the list was just before. *)
Lemma fire_removal s k d captured :
  nth_error (timers s) k = Some (mkTimer d (RemoveCompleted captured)) ->
  todos (step JSON_stringify s (TimerFires k)) =
    filter (fun todo => negb (is_completed todo)) captured
  /\ exitingIds (step JSON_stringify s (TimerFires k)) = []
  /\ timers (step JSON_stringify s (TimerFires k)) = remove_nth k (timers s).
Proof.
  intros H. rewrite todos_step, exitingIds_step, timers_step.
  cbn [handle]. unfold fire. rewrite H. cbn. auto.
Qed.

Lemma filter_not_completed_clean l :
  forallb (fun todo => negb (is_completed todo))
          (filter (fun todo => negb (is_completed todo)) l) = true.
Proof.
  apply forallb_forall. intros t Ht. apply filter_In in Ht. tauto.
Qed.

Lemma filter_not_completed_none l :
  existsb is_completed
          (filter (fun todo => negb (is_completed todo)) l) = false.
Proof.
  induction l as [| t l IH]; cbn.
  - reflexivity.
  - destruct (is_completed t) eqn:Et; cbn; [exact IH |].
    rewrite Et. exact IH.
Qed.

Lemma nth_error_snoc {A} (l : list A) x :
  nth_error (l ++ [x]) (List.length l) = Some x.
Proof.
  rewrite nth_error_app2 by apply Nat.le_refl.
  rewrite Nat.sub_diag. reflexivity.
Qed.

End ClearCompleted.

Section Deferral.

Variable JSON_stringify : json -> string.

(** C6. When the list has no completed task, clearCompleted() does
    nothing. When it has one, clearCompleted() leaves the list as it is for
    the time being, flags the completed tasks as exiting (the exiting ids
    are the ids of the completed tasks, and no event other than another
    clearCompleted or a timeout changes the exiting ids) and registers one
    timeout with the fixed delay of 400 ms. When that timeout fires, in
    whatever state the component is by then, the list becomes exactly the
    tasks that were not completed when clearCompleted was called, no
    completed task is left and the exiting ids are cleared. Scenario: from
    the empty list, add of Buy milk gives one task with completed false,
    toggle of its id makes it completed, and clearCompleted followed by the
    timeout leaves the empty list. *)
Theorem clearCompleted_removes_completed_after_delay (s : State) :
  (existsb is_completed (todos s) = false ->
   todos (step JSON_stringify s ClickClear) = todos s
   /\ exitingIds (step JSON_stringify s ClickClear) = exitingIds s
   /\ timers (step JSON_stringify s ClickClear) = timers s)
  /\ (forall e,
         e <> ClickClear -> (forall k, e <> TimerFires k) ->
         exitingIds (step JSON_stringify s e) = exitingIds s)
  /\ (existsb is_completed (todos s) = true ->
   let s1 := step JSON_stringify s ClickClear in
   todos s1 = todos s
   /\ exitingIds s1 = ids (filter is_completed (todos s))
   /\ (forall todo, In todo (todos s) -> is_completed todo = true ->
                    isExiting s1 todo = true)
   /\ timers s1 =
        timers s ++ [mkTimer 400 (RemoveCompleted (todos s))]
   /\ (forall s2 k,
          nth_error (timers s2) k =
            Some (mkTimer 400 (RemoveCompleted (todos s))) ->
          let s3 := step JSON_stringify s2 (TimerFires k) in
          todos s3 = filter (fun todo => negb (is_completed todo)) (todos s)
          /\ existsb is_completed (todos s3) = false
          /\ exitingIds s3 = []))
  /\ (forall cap c,
         let s1 := add JSON_stringify "Buy milk" (empty_state cap c) in
         let id := JNum (readings c (calls c)) in
         let s2 := toggle JSON_stringify id s1 in
         let s3 := step JSON_stringify s2 ClickClear in
         let s4 := step JSON_stringify s3 (TimerFires 1) in
         todos s1 = [mkTodo id (JStr "Buy milk") (JBool false)
                            (JNum (readings c (S (calls c))))]
         /\ todos s2 = [mkTodo id (JStr "Buy milk") (JBool true)
                               (JNum (readings c (S (calls c))))]
         /\ todos s3 = todos s2
         /\ exitingIds s3 = [id]
         /\ todos s4 = []).
Proof.
  split; [| split; [| split]].
  - intros H.
    rewrite todos_step, exitingIds_step, timers_step. cbn [handle].
    rewrite (clearCompleted_none s H). auto.
  - intros e Hc Ht. rewrite exitingIds_step.
    destruct e as [v | | i | i | i x | | k]; cbn [handle].
    + reflexivity.
    + unfold addTodo. destruct (String.eqb (trim (inputValue s)) "");
        reflexivity.
    + reflexivity.
    + reflexivity.
    + unfold updateTodo. destruct (String.eqb (trim x) ""); reflexivity.
    + exfalso. apply Hc. reflexivity.
    + exfalso. apply (Ht k). reflexivity.
  - intros H s1. subst s1.
    assert (Hs1 : handle ClickClear s = clearCompleted s) by reflexivity.
    rewrite todos_step, exitingIds_step, timers_step, Hs1.
    rewrite (clearCompleted_some s H).
    split; [reflexivity |]. split; [reflexivity |].
    split; [| split; [reflexivity |]].
    + intros todo Hin Hc. unfold isExiting.
      rewrite exitingIds_step, Hs1, (clearCompleted_some s H).
      cbn [exitingIds setTimeout setExitingIds].
      apply existsb_exists. exists (todo_id todo). split.
      * unfold ids. apply in_map. apply filter_In. split; assumption.
      * apply strict_eq_refl.
    + intros s2 k Hk s3. subst s3.
      destruct (fire_removal JSON_stringify s2 k _ _ Hk) as [Ht [He _]].
      rewrite Ht, He. split; [reflexivity |]. split; [| reflexivity].
      apply filter_not_completed_none.
  - intros cap c s1 id s2 s3 s4.
    assert (E1 : todos s1 = [mkTodo id (JStr "Buy milk") (JBool false)
                                    (JNum (readings c (S (calls c))))]).
    { subst s1. rewrite todos_add. reflexivity. }
    assert (E2 : todos s2 = [mkTodo id (JStr "Buy milk") (JBool true)
                                    (JNum (readings c (S (calls c))))]).
    { subst s2. rewrite todos_toggle, E1. cbn.
      unfold has_id. cbn. subst id. cbn. rewrite Z.eqb_refl. reflexivity. }
    assert (Hc : existsb is_completed (todos s2) = true)
      by (rewrite E2; reflexivity).
    assert (Hs3 : handle ClickClear s2 = clearCompleted s2) by reflexivity.
    assert (E3 : todos s3 = todos s2).
    { subst s3. rewrite todos_step, Hs3, (clearCompleted_some s2 Hc).
      reflexivity. }
    assert (E4 : exitingIds s3 = [id]).
    { subst s3. rewrite exitingIds_step, Hs3, (clearCompleted_some s2 Hc).
      cbn [exitingIds setTimeout setExitingIds]. rewrite E2. reflexivity. }
    assert (T3 : timers s3 =
                 [mkTimer 0 FocusInput;
                  mkTimer 400 (RemoveCompleted (todos s2))]).
    { subst s3. rewrite timers_step, Hs3, (clearCompleted_some s2 Hc).
      cbn [timers setTimeout setExitingIds].
      subst s2. unfold toggle at 1, apply_op.
      cbn [events_of run fold_left]. rewrite timers_step.
      cbn [handle toggleComplete setTodos timers].
      subst s1. unfold add, apply_op.
      cbn [events_of run fold_left]. rewrite timers_step.
      reflexivity. }
    repeat split; try assumption.
    subst s4.
    destruct (fire_removal JSON_stringify s3 1 400 (todos s2)) as [Ht _].
    { rewrite T3. reflexivity. }
    rewrite Ht, E2. reflexivity.
Qed.

(** C10. The callback that clearCompleted defers filters the list that
    was current when clearCompleted was called. For every list with a
    completed task: whatever state the component has reached when the
    timeout fires, the list becomes the captured list without its completed
    tasks. In particular, when add(t) succeeds between the call and the
    expiry, the list first holds the new task at its end, the timeout is
    still pending, and after it fires the list is shorter than before the
    firing and, when the id of the new task was not in use at call time,
    holds no task with that id. *)
Theorem deferred_removal_discards_interleaved_add
        (s : State) (rawText : string) :
  existsb is_completed (todos s) = true ->
  trim rawText <> "" ->
  let s1 := step JSON_stringify s ClickClear in
  let s2 := add JSON_stringify rawText s1 in
  let k := List.length (timers s) in
  let s3 := step JSON_stringify s2 (TimerFires k) in
  let newTodo :=
    mkTodo (JNum (readings (clock s) (calls (clock s))))
           (JStr (trim rawText)) (JBool false)
           (JNum (readings (clock s) (S (calls (clock s))))) in
  (forall s' j,
      nth_error (timers s') j =
        Some (mkTimer 400 (RemoveCompleted (todos s))) ->
      todos (step JSON_stringify s' (TimerFires j)) =
        filter (fun todo => negb (is_completed todo)) (todos s))
  /\ todos s2 = todos s ++ [newTodo]
  /\ nth_error (timers s2) k = Some (mkTimer 400 (RemoveCompleted (todos s)))
  /\ todos s3 = filter (fun todo => negb (is_completed todo)) (todos s)
  /\ (List.length (todos s3) < List.length (todos s2))%nat
  /\ (~ In (todo_id newTodo) (ids (todos s)) ->
      forall todo, In todo (todos s3) -> todo_id todo <> todo_id newTodo).
Proof.
  intros Hc Hne s1 s2 k s3 newTodo.
  assert (Hs1 : handle ClickClear s = clearCompleted s) by reflexivity.
  assert (Hgen : forall s' j,
             nth_error (timers s') j =
               Some (mkTimer 400 (RemoveCompleted (todos s))) ->
             todos (step JSON_stringify s' (TimerFires j)) =
               filter (fun todo => negb (is_completed todo)) (todos s)).
  { intros s' j Hj.
    destruct (fire_removal JSON_stringify s' j _ _ Hj) as [Ht _]. exact Ht. }
  assert (E1 : todos s1 = todos s).
  { subst s1. rewrite todos_step, Hs1, (clearCompleted_some s Hc).
    reflexivity. }
  assert (C1 : clock s1 = clock s).
  { subst s1. rewrite clock_step, Hs1, (clearCompleted_some s Hc).
    reflexivity. }
  assert (T1 : timers s1 =
               timers s ++ [mkTimer 400 (RemoveCompleted (todos s))]).
  { subst s1. rewrite timers_step, Hs1, (clearCompleted_some s Hc).
    reflexivity. }
  assert (E2 : todos s2 = todos s ++ [newTodo]).
  { subst s2. rewrite todos_add, E1, C1.
    destruct (String.eqb_spec (trim rawText) ""); [contradiction |].
    reflexivity. }
  assert (T2 : nth_error (timers s2) k =
               Some (mkTimer 400 (RemoveCompleted (todos s)))).
  { subst s2. unfold add, apply_op. cbn [events_of run fold_left].
    rewrite timers_step. cbn [handle]. unfold addTodo.
    rewrite inputValue_step. cbn [handle setInputValue inputValue].
    destruct (String.eqb_spec (trim rawText) ""); [contradiction |].
    cbn. rewrite timers_step. cbn [handle setInputValue timers].
    rewrite T1. subst k.
    rewrite nth_error_app1 by (rewrite length_app; cbn; lia).
    apply nth_error_snoc. }
  assert (E3 : todos s3 =
               filter (fun todo => negb (is_completed todo)) (todos s))
    by (apply Hgen; exact T2).
  split; [exact Hgen |]. split; [exact E2 |]. split; [exact T2 |].
  split; [exact E3 |]. split.
  - rewrite E3, E2, length_app. cbn.
    pose proof (filter_length_le (fun todo => negb (is_completed todo))
                                 (todos s)).
    lia.
  - intros Hfresh todo Hin Heq. apply Hfresh.
    rewrite E3 in Hin. apply filter_In in Hin. destruct Hin as [Hin _].
    rewrite <- Heq. unfold ids. apply in_map. exact Hin.
Qed.

End Deferral.

(* ================================================================== *)
(** ** Loading and saving *)

Section LoadSave.

Variable JSON_parse : string -> option json.
Variable JSON_stringify : json -> string.

(** The callback on an entry that is not [null]: it does not throw, and
    each field is the stored one when that is truthy. *)
Lemma repair_not_null (e : json) (c : Clock) :
  e <> JNull ->
  exists t c',
    repair e c = (Normal t, c')
    /\ readings c' = readings c
    /\ (calls c <= calls c' <= calls c + 2)%nat
    /\ todo_id t = js_or (prop "id" e) (JNum (readings c (calls c)))
    /\ todo_text t = js_or (prop "text" e) (JStr "")
    /\ todo_completed t = js_or (prop "completed" e) (JBool false)
    /\ todo_createdAt t =
         js_or (prop "createdAt" e)
               (js_or (prop "id" e) (JNum (readings c (S (calls c)))))
    /\ (truthy_opt (prop "id" e) = true -> c' = c).
Proof.
  intros Hnn.
  assert (Hget : forall key, get_prop key e = ret (prop key e)).
  { intros key. destruct e; try reflexivity. contradiction. }
  unfold repair. rewrite !Hget.
  unfold or_now, or_else, js_or, truthy_opt, bind, ret, now, Date_now.
  destruct (prop "id" e) as [i |]; [destruct (truthy i) eqn:Ti |];
    (destruct (prop "createdAt" e) as [ca |];
     [destruct (truthy ca) eqn:Tca |]);
    cbn; rewrite ?Ti, ?Tca; cbn;
    eexists; eexists; (split; [reflexivity |]); cbn;
    repeat split; try reflexivity; try lia; try discriminate.
Qed.

Lemma repair_null (c : Clock) : repair JNull c = (Throw, c).
Proof. reflexivity. Qed.

(** A well-formed task written as an object is read back as it was, and
    the clock is not consulted. *)
Lemma repair_well_formed (t : Todo) (c : Clock) :
  well_formed t = true -> repair (todo_json t) c = (Normal t, c).
Proof.
  destruct t as [i x d ca]. unfold well_formed. cbn.
  destruct i as [| | i | | |]; try discriminate.
  destruct x as [| | | x | |]; try discriminate.
  destruct d as [| d | | | |]; try discriminate.
  destruct ca as [| | ca | | |]; try discriminate.
  intros H. apply andb_prop in H. destruct H as [H Hca].
  apply andb_prop in H. destruct H as [Hi Hx].
  unfold repair, todo_json, get_prop, bind, ret, or_now, or_else, js_or.
  cbn. rewrite Hi, Hx, Hca. destruct d; reflexivity.
Qed.

Lemma mapM_repair_well_formed (l : list Todo) (c : Clock) :
  forallb well_formed l = true ->
  mapM repair (map todo_json l) c = (Normal l, c).
Proof.
  induction l as [| t l IH]; intros H.
  - reflexivity.
  - cbn in H. apply andb_prop in H. destruct H as [Ht Hl].
    cbn [map mapM]. unfold bind at 1.
    rewrite (repair_well_formed t c Ht).
    unfold bind at 1. rewrite (IH Hl). reflexivity.
Qed.

(** A [null] entry makes the traversal throw. *)
Lemma mapM_repair_null (l : list json) (c : Clock) :
  In JNull l -> exists c', mapM repair l c = (Throw, c').
Proof.
  revert c. induction l as [| e l IH]; intros c H.
  - destruct H.
  - cbn [mapM]. unfold bind at 1.
    destruct (repair e c) as [[t |] c1] eqn:E.
    + destruct H as [-> | H].
      * rewrite repair_null in E. discriminate.
      * destruct (IH c1 H) as [c' Hc']. exists c'. unfold bind at 1.
        rewrite Hc'. reflexivity.
    + exists c1. reflexivity.
Qed.

(** Without a [null] entry the traversal ends normally, with one task per
    entry, each repaired at some clock of the run. *)
Lemma mapM_repair_total (l : list json) (c : Clock) :
  ~ In JNull l ->
  exists r c',
    mapM repair l c = (Normal r, c')
    /\ readings c' = readings c
    /\ (calls c <= calls c')%nat
    /\ Forall2 (fun e t =>
                  exists c1 c2,
                    repair e c1 = (Normal t, c2)
                    /\ readings c1 = readings c
                    /\ (calls c <= calls c1)%nat) l r.
Proof.
  revert c. induction l as [| e l IH]; intros c H.
  - exists [], c. cbn. repeat split; auto.
  - assert (He : e <> JNull) by (intros ->; apply H; left; reflexivity).
    assert (Hl : ~ In JNull l) by (intros Hin; apply H; right; exact Hin).
    destruct (repair_not_null e c He)
      as [t [c1 [Er [Hr [Hc _]]]]].
    destruct (IH c1 Hl) as [r [c' [Em [Hr' [Hc' HF]]]]].
    exists (t :: r), c'. cbn [mapM]. unfold bind at 1. rewrite Er.
    unfold bind at 1. rewrite Em.
    split; [reflexivity |]. split; [congruence |]. split; [lia |].
    constructor.
    + exists c, c1. repeat split; auto.
    + eapply Forall2_impl; [| exact HF].
      cbn. intros e' t' [c2 [c3 [E' [R' C']]]].
      exists c2, c3. repeat split; [exact E' | congruence | lia].
Qed.

Lemma load_absent st c :
  getItem st = None -> loadTodosFromStorage JSON_parse st c = ([], c).
Proof. intros H. unfold loadTodosFromStorage. rewrite H. reflexivity. Qed.

Lemma load_empty_text st c :
  getItem st = Some "" -> loadTodosFromStorage JSON_parse st c = ([], c).
Proof. intros H. unfold loadTodosFromStorage. rewrite H. reflexivity. Qed.

Lemma load_corrupt st c s :
  getItem st = Some s -> JSON_parse s = None ->
  loadTodosFromStorage JSON_parse st c = ([], c).
Proof.
  intros H Hp. unfold loadTodosFromStorage. rewrite H, Hp.
  destruct (String.eqb s ""); reflexivity.
Qed.

Lemma load_not_array st c s v :
  getItem st = Some s -> JSON_parse s = Some v ->
  (forall e l, v <> JArr (e :: l)) ->
  loadTodosFromStorage JSON_parse st c = ([], c).
Proof.
  intros H Hp Hv. unfold loadTodosFromStorage. rewrite H, Hp.
  destruct (String.eqb s ""); [reflexivity |].
  destruct v as [| | | | [| e l] |]; try reflexivity.
  exfalso. apply (Hv e l). reflexivity.
Qed.

Lemma load_array st c s l :
  getItem st = Some s -> s <> "" -> JSON_parse s = Some (JArr l) ->
  loadTodosFromStorage JSON_parse st c =
    match mapM repair l c with
    | (Normal r, c') => (r, c')
    | (Throw, c') => ([], c')
    end.
Proof.
  intros H Hs Hp. unfold loadTodosFromStorage. rewrite H, Hp.
  destruct (String.eqb_spec s ""); [contradiction |].
  destruct l as [| e l]; reflexivity.
Qed.

Lemma saveTodos_fits l st :
  (String.length (JSON_stringify (todos_json l)) <= capacity st)%nat ->
  saveTodos JSON_stringify l st =
    mkStorage (Some (JSON_stringify (todos_json l))) (capacity st).
Proof.
  intros H. unfold saveTodos, setItem.
  apply Nat.leb_le in H. rewrite H. reflexivity.
Qed.

Lemma saveTodos_too_long l st :
  (capacity st < String.length (JSON_stringify (todos_json l)))%nat ->
  saveTodos JSON_stringify l st = st.
Proof.
  intros H. unfold saveTodos, setItem.
  apply Nat.leb_gt in H. rewrite H. reflexivity.
Qed.

End LoadSave.

Section LoadSaveProperties.

Variable JSON_parse : string -> option json.
Variable JSON_stringify : json -> string.


Lemma storage_render_set s :
  todosSet s = true ->
  storage (render JSON_stringify s) =
    saveTodos JSON_stringify (todos s) (storage s).
Proof. intros H. unfold render. rewrite H. reflexivity. Qed.

(** The round trip over any platform printer and parser that read back
    the text of the list. *)
Lemma round_trip_with_codec
        (L : list Todo) (st : Storage) (c : Clock) :
  forallb well_formed L = true ->
  JSON_stringify (todos_json L) <> "" ->
  JSON_parse (JSON_stringify (todos_json L)) = Some (todos_json L) ->
  (String.length (JSON_stringify (todos_json L)) <= capacity st)%nat ->
  loadTodosFromStorage JSON_parse (saveTodos JSON_stringify L st) c = (L, c)
  /\ (forall s exiting,
         storage s = st ->
         let s' := render JSON_stringify
                          (setExitingIds exiting (setTodos L s)) in
         getItem (storage s') = Some (JSON_stringify (todos_json L))
         /\ loadTodosFromStorage JSON_parse (storage s') c = (L, c)).
Proof.
  intros Hwf Hne Hrt Hfit.
  assert (Hload :
            loadTodosFromStorage JSON_parse
              (saveTodos JSON_stringify L st) c = (L, c)).
  { rewrite (saveTodos_fits JSON_stringify L st Hfit).
    rewrite (load_array JSON_parse
               (mkStorage (Some (JSON_stringify (todos_json L)))
                          (capacity st))
               c (JSON_stringify (todos_json L)) (map todo_json L)
               eq_refl Hne Hrt).
    rewrite (mapM_repair_well_formed L c Hwf). reflexivity. }
  split; [exact Hload |].
  intros s exiting Hst s'. subst s'.
  rewrite storage_render_set by reflexivity.
  cbn [todos storage setExitingIds setTodos]. rewrite Hst.
  split; [| exact Hload].
  rewrite (saveTodos_fits JSON_stringify L st Hfit). reflexivity.
Qed.


(** What loading a stored array without [null] returns. *)
Lemma load_array_repaired st c s l :
  getItem st = Some s -> s <> "" -> JSON_parse s = Some (JArr l) ->
  ~ In JNull l ->
  Forall2
    (fun e t =>
       exists n m,
         (calls c <= n)%nat /\ (calls c <= m)%nat
         /\ todo_id t = js_or (prop "id" e) (JNum (readings c n))
         /\ todo_text t = js_or (prop "text" e) (JStr "")
         /\ todo_completed t = js_or (prop "completed" e) (JBool false)
         /\ todo_createdAt t =
              js_or (prop "createdAt" e)
                    (js_or (prop "id" e) (JNum (readings c m))))
    l (loaded JSON_parse st c).
Proof.
  intros H Hs Hp Hnn. unfold loaded.
  rewrite (load_array JSON_parse st c s l H Hs Hp).
  destruct (mapM_repair_total l c Hnn) as [r [c' [Em [_ [_ HF]]]]].
  rewrite Em. cbn [fst].
  eapply Forall2_impl; [| exact HF].
  cbn. intros e t [c1 [c2 [Er [Hr Hc]]]].
  assert (He : e <> JNull).
  { intros ->. rewrite repair_null in Er. discriminate. }
  destruct (repair_not_null e c1 He)
    as [t' [c2' [Er' [_ [_ [Hi [Hx [Hd [Hca _]]]]]]]]].
  rewrite Er in Er'. inversion Er'. subst t' c2'.
  exists (calls c1), (S (calls c1)).
  rewrite <- Hr. repeat split; auto; lia.
Qed.

(** C2, as the code has it. load() returns the empty sequence, and throws
    nothing, when the slot is absent, holds the empty text, holds text that
    fails to parse, or holds a value that is not a non-empty array; it also
    returns the empty sequence when the stored array has a null entry (the
    TypeError is caught). For a stored non-empty array with no null entry
    the loaded list has one task per entry, in order, and each field of a
    task is the stored one when that is truthy; otherwise id is a reading of
    the clock taken during the call, text is the empty string, completed is
    false, and createdAt is the entry's id when that is truthy and a reading
    of the clock when the id is missing or falsy (0, empty string, false,
    null). So loading the entry with id 5, text x and completed false
    yields a task with createdAt 5. *)
Theorem load_recovers_and_repairs (st : Storage) (c : Clock) :
  (getItem st = None -> loadTodosFromStorage JSON_parse st c = ([], c))
  /\ (getItem st = Some "" ->
      loadTodosFromStorage JSON_parse st c = ([], c))
  /\ (forall s,
         getItem st = Some s -> JSON_parse s = None ->
         loadTodosFromStorage JSON_parse st c = ([], c))
  /\ (forall s v,
         getItem st = Some s -> JSON_parse s = Some v ->
         (forall e l, v <> JArr (e :: l)) ->
         loadTodosFromStorage JSON_parse st c = ([], c))
  /\ (forall s l,
         getItem st = Some s -> s <> "" -> JSON_parse s = Some (JArr l) ->
         (In JNull l -> loaded JSON_parse st c = [])
         /\ (~ In JNull l ->
             Forall2
               (fun e t =>
                  exists n m,
                    (calls c <= n)%nat /\ (calls c <= m)%nat
                    /\ todo_id t = js_or (prop "id" e) (JNum (readings c n))
                    /\ todo_text t = js_or (prop "text" e) (JStr "")
                    /\ todo_completed t =
                         js_or (prop "completed" e) (JBool false)
                    /\ todo_createdAt t =
                         js_or (prop "createdAt" e)
                               (js_or (prop "id" e) (JNum (readings c m))))
               l (loaded JSON_parse st c)))
  /\ (forall s,
         getItem st = Some s -> s <> "" ->
         JSON_parse s =
           Some (JArr [JObj [("id", JNum 5); ("text", JStr "x");
                             ("completed", JBool false)]]) ->
         loadTodosFromStorage JSON_parse st c =
           ([mkTodo (JNum 5) (JStr "x") (JBool false) (JNum 5)], c)).
Proof.
  split; [apply load_absent |].
  split; [apply load_empty_text |].
  split; [intros s; apply load_corrupt |].
  split; [intros s v; apply load_not_array |].
  split.
  - intros s l H Hs Hp. split.
    + intros Hin. unfold loaded.
      rewrite (load_array JSON_parse st c s l H Hs Hp).
      destruct (mapM_repair_null l c Hin) as [c' E]. rewrite E. reflexivity.
    + intros Hnn. exact (load_array_repaired st c s l H Hs Hp Hnn).
  - intros s H Hs Hp.
    rewrite (load_array JSON_parse st c s _ H Hs Hp). reflexivity.
Qed.

End LoadSaveProperties.

(* ================================================================== *)
(** ** The text of a task *)

Section Texts.

Variable JSON_parse : string -> option json.
Variable JSON_stringify : json -> string.












End Texts.

(* ================================================================== *)
(** ** Sequences of operations *)

Lemma subseq_refl {A} (l : list A) : subseq l l.
Proof. induction l; constructor; assumption. Qed.

Lemma subseq_trans {A} (l1 l2 l3 : list A) :
  subseq l1 l2 -> subseq l2 l3 -> subseq l1 l3.
Proof.
  intros H12 H23. revert l1 H12.
  induction H23 as [| x l2 l3 _ IH | x l2 l3 _ IH]; intros l1 H12.
  - exact H12.
  - apply subseq_skip. apply IH. exact H12.
  - inversion H12; subst.
    + apply subseq_skip. apply IH. assumption.
    + apply subseq_take. apply IH. assumption.
Qed.

Lemma subseq_app_r {A} (l1 l2 r : list A) :
  subseq l1 l2 -> subseq (l1 ++ r) (l2 ++ r).
Proof.
  induction 1; cbn.
  - apply subseq_refl.
  - apply subseq_skip. assumption.
  - apply subseq_take. assumption.
Qed.

Lemma subseq_filter_map {A B} (f : A -> B) (p : A -> bool) l :
  subseq (map f (filter p l)) (map f l).
Proof.
  induction l as [| x l IH]; cbn.
  - constructor.
  - destruct (p x); cbn; constructor; exact IH.
Qed.

Lemma subseq_In {A} (l1 l2 : list A) x : subseq l1 l2 -> In x l1 -> In x l2.
Proof.
  induction 1; cbn; intros Hin.
  - exact Hin.
  - right. auto.
  - destruct Hin; [left | right]; auto.
Qed.

Lemma filter_map_commute {A} (p : A -> bool) (g : A -> A) l :
  (forall x, p (g x) = p x) -> filter p (map g l) = map g (filter p l).
Proof.
  intros H. induction l as [| x l IH]; cbn.
  - reflexivity.
  - rewrite H. destruct (p x); cbn; rewrite IH; reflexivity.
Qed.

Lemma filter_filter_comm {A} (p q : A -> bool) l :
  filter p (filter q l) = filter q (filter p l).
Proof.
  induction l as [| x l IH]; cbn.
  - reflexivity.
  - destruct (q x) eqn:Q, (p x) eqn:P; cbn; rewrite ?Q, ?P, IH; reflexivity.
Qed.

Lemma filter_none {A} (p : A -> bool) l :
  (forall x, In x l -> p x = false) -> filter p l = [].
Proof.
  induction l as [| x l IH]; intros H; cbn.
  - reflexivity.
  - rewrite (H x) by (left; reflexivity). apply IH.
    intros y Hy. apply H. right. exact Hy.
Qed.

Lemma filter_all {A} (p : A -> bool) l :
  (forall x, In x l -> p x = true) -> filter p l = l.
Proof.
  induction l as [| x l IH]; intros H; cbn.
  - reflexivity.
  - rewrite (H x) by (left; reflexivity). f_equal. apply IH.
    intros y Hy. apply H. right. exact Hy.
Qed.

Lemma has_id_true id t : has_id id t = true <-> todo_id t = id.
Proof. apply strict_eq_spec. Qed.

Lemma has_id_false id t : has_id id t = false <-> todo_id t <> id.
Proof. apply strict_eq_false. Qed.

Lemma not_in_ids_filter id l : ~ In id (ids l) -> filter (has_id id) l = [].
Proof.
  intros H. apply filter_none. intros t Ht. apply has_id_false.
  intros E. apply H. rewrite <- E. unfold ids. apply in_map. exact Ht.
Qed.

Lemma filter_has_id_in id l t : filter (has_id id) l = [t] -> In id (ids l).
Proof.
  intros H.
  assert (Hin : In t (filter (has_id id) l)) by (rewrite H; left; reflexivity).
  apply filter_In in Hin. destruct Hin as [Hin Hid].
  apply has_id_true in Hid. rewrite <- Hid. unfold ids. apply in_map.
  exact Hin.
Qed.

Lemma existsb_has_id id l : existsb (has_id id) l = true <-> In id (ids l).
Proof.
  rewrite existsb_exists. unfold ids. rewrite in_map_iff. split.
  - intros [t [Hin Ht]]. exists t. split; [apply has_id_true |]; assumption.
  - intros [t [Ht Hin]]. exists t. split; [| apply has_id_true]; assumption.
Qed.

Lemma ids_toggled id l : ids (map (toggled_task id) l) = ids l.
Proof.
  unfold ids. rewrite map_map. apply map_ext. intros t. unfold toggled_task.
  destruct (strict_eq (todo_id t) id); reflexivity.
Qed.

Lemma ids_edited id x l : ids (map (edited_task id x) l) = ids l.
Proof.
  unfold ids. rewrite map_map. apply map_ext. intros t. unfold edited_task.
  destruct (strict_eq (todo_id t) id); reflexivity.
Qed.

Lemma NoDup_ids_filter (p : Todo -> bool) l :
  NoDup (ids l) -> NoDup (ids (filter p l)).
Proof.
  induction l as [| t l IH]; cbn; intros H.
  - constructor.
  - inversion H as [| x xs Hnin Hnd]; subst.
    destruct (p t); cbn.
    + constructor; [| apply IH; exact Hnd].
      intros Hin. apply Hnin.
      eapply subseq_In; [apply subseq_filter_map | exact Hin].
    + apply IH. exact Hnd.
Qed.

(** With distinct ids, a delete that finds its task removes exactly one. *)
Lemma length_delete_hit id l :
  NoDup (ids l) -> In id (ids l) ->
  S (List.length (filter (fun t => negb (has_id id t)) l)) = List.length l.
Proof.
  induction l as [| t l IH]; cbn; intros Hnd Hin.
  - destruct Hin.
  - inversion Hnd as [| x xs Hnin Hnd']; subst.
    destruct (has_id id t) eqn:E; cbn.
    + apply has_id_true in E. rewrite E in Hnin.
      rewrite filter_all; [reflexivity |].
      intros y Hy. apply negb_true_iff. apply has_id_false.
      intros Ey. apply Hnin. rewrite <- Ey. unfold ids. apply in_map.
      exact Hy.
    + f_equal. apply IH; [exact Hnd' |].
      destruct Hin as [Hin | Hin]; [| exact Hin].
      apply has_id_false in E. contradiction.
Qed.

Lemma length_delete_miss id l :
  ~ In id (ids l) -> filter (fun t => negb (has_id id t)) l = l.
Proof.
  intros H. apply filter_all. intros t Ht.
  apply negb_true_iff. apply has_id_false.
  intros E. apply H. rewrite <- E. unfold ids. apply in_map. exact Ht.
Qed.

Section Sequences.

Variable JSON_stringify : json -> string.

Lemma todos_apply_op s op :
  todos (apply_op JSON_stringify s op) =
  match op with
  | Add a => if blank a then todos s else todos s ++ [added_task s a]
  | Remove id => filter (fun t => negb (has_id id t)) (todos s)
  | Toggle id => map (toggled_task id) (todos s)
  | Edit id x =>
      if blank x then todos s else map (edited_task id (trim x)) (todos s)
  end.
Proof.
  destruct op as [a | id | id | id x].
  - apply (todos_add JSON_stringify a s).
  - apply (todos_remove JSON_stringify id s).
  - apply (todos_toggle JSON_stringify id s).
  - apply (todos_edit JSON_stringify id x s).
Qed.

Lemma apply_ops_cons s op ops :
  apply_ops JSON_stringify s (op :: ops) =
  apply_ops JSON_stringify (apply_op JSON_stringify s op) ops.
Proof. reflexivity. Qed.

Lemma apply_ops_app s ops1 ops2 :
  apply_ops JSON_stringify s (ops1 ++ ops2) =
  apply_ops JSON_stringify (apply_ops JSON_stringify s ops1) ops2.
Proof. apply fold_left_app. Qed.

Lemma added_ids_app s ops1 ops2 :
  added_ids JSON_stringify s (ops1 ++ ops2) =
  added_ids JSON_stringify s ops1
  ++ added_ids JSON_stringify (apply_ops JSON_stringify s ops1) ops2.
Proof.
  revert s. induction ops1 as [| op ops1 IH]; intros s.
  - reflexivity.
  - cbn [app added_ids]. rewrite IH, apply_ops_cons, app_assoc. reflexivity.
Qed.

(** The ids of the list after one operation. *)
Lemma ids_apply_op s op :
  ids (todos (apply_op JSON_stringify s op)) =
  match op with
  | Add a => if blank a then ids (todos s) else ids (todos s) ++ [next_id s]
  | Remove id => ids (filter (fun t => negb (has_id id t)) (todos s))
  | _ => ids (todos s)
  end.
Proof.
  rewrite todos_apply_op. destruct op as [a | id | id | id x].
  - destruct (blank a); [reflexivity |]. unfold ids. rewrite map_app.
    reflexivity.
  - reflexivity.
  - apply ids_toggled.
  - destruct (blank x); [reflexivity | apply ids_edited].
Qed.

Lemma tracks_step used s op ops :
  tracks JSON_stringify used s (op :: ops) ->
  tracks JSON_stringify (used_after used s op)
         (apply_op JSON_stringify s op) ops.
Proof.
  intros [Hincl [Hnd Hfresh]]. unfold tracks.
  rewrite ids_apply_op. cbn [added_ids] in Hfresh.
  destruct op as [a | id | id | id x]; cbn [used_after].
  - destruct (blank a).
    + repeat split; assumption.
    + rewrite app_assoc in Hfresh.
      assert (Hx : ~ In (next_id s) used).
      { apply NoDup_app_remove_r in Hfresh.
        apply NoDup_remove_2 in Hfresh. rewrite app_nil_r in Hfresh.
        exact Hfresh. }
      repeat split.
      * intros y Hy. apply in_app_or in Hy. apply in_or_app.
        destruct Hy as [Hy | Hy]; [left; apply Hincl | right]; assumption.
      * apply NoDup_app; [exact Hnd | repeat constructor; intros [] |].
        intros y Hy1 [<- | []]. apply Hx, Hincl, Hy1.
      * exact Hfresh.
  - repeat split.
    + intros y Hy. apply Hincl.
      eapply subseq_In; [apply subseq_filter_map | exact Hy].
    + apply NoDup_ids_filter. exact Hnd.
    + exact Hfresh.
  - repeat split; assumption.
  - repeat split; assumption.
Qed.

(** The length of the list through a sequence of operations. *)
Lemma length_apply_ops ops :
  forall used s,
    tracks JSON_stringify used s ops ->
    (List.length (todos (apply_ops JSON_stringify s ops))
     + deletes_applied JSON_stringify s ops
     = List.length (todos s) + adds_applied ops)%nat.
Proof.
  induction ops as [| op ops IH]; intros used s Htr.
  - cbn. lia.
  - rewrite apply_ops_cons.
    pose proof (IH _ _ (tracks_step used s op ops Htr)) as E.
    destruct Htr as [_ [Hnd _]].
    cbn [deletes_applied adds_applied].
    rewrite todos_apply_op in E.
    destruct op as [a | id | id | id x].
    + destruct (blank a).
      * lia.
      * rewrite length_app in E. cbn [List.length] in E. lia.
    + destruct (existsb (has_id id) (todos s)) eqn:Ex.
      * apply existsb_has_id in Ex.
        pose proof (length_delete_hit id (todos s) Hnd Ex). lia.
      * assert (Hmiss : ~ In id (ids (todos s))).
        { intros Hin. apply existsb_has_id in Hin. congruence. }
        rewrite (length_delete_miss id (todos s) Hmiss) in E. lia.
    + rewrite length_map in E. lia.
    + destruct (blank x); [| rewrite length_map in E]; lia.
Qed.

(** Order: the ids of the list are those it had, then those handed out,
    with some left out. *)
Lemma ids_subseq ops :
  forall s,
    subseq (ids (todos (apply_ops JSON_stringify s ops)))
           (ids (todos s) ++ added_ids JSON_stringify s ops).
Proof.
  induction ops as [| op ops IH]; intros s.
  - cbn. rewrite app_nil_r. apply subseq_refl.
  - rewrite apply_ops_cons. cbn [added_ids].
    eapply subseq_trans; [apply IH |].
    rewrite ids_apply_op.
    destruct op as [a | id | id | id x]; cbn [app].
    + destruct (blank a).
      * apply subseq_refl.
      * rewrite <- app_assoc. apply subseq_refl.
    + apply subseq_app_r. apply subseq_filter_map.
    + apply subseq_refl.
    + apply subseq_refl.
Qed.

End Sequences.

Section Histories.

Variable JSON_stringify : json -> string.

Lemma tracks_fresh used s a ops :
  tracks JSON_stringify used s (Add a :: ops) -> blank a = false ->
  ~ In (next_id s) used.
Proof.
  intros [_ [_ Hfresh]] Hb. cbn [added_ids] in Hfresh. rewrite Hb in Hfresh.
  apply NoDup_remove_2 in Hfresh. intros Hin. apply Hfresh.
  apply in_or_app. left. exact Hin.
Qed.

Lemma has_id_toggled i j t : has_id i (toggled_task j t) = has_id i t.
Proof.
  unfold toggled_task, has_id. destruct (strict_eq (todo_id t) j); reflexivity.
Qed.

Lemma has_id_edited i j x t : has_id i (edited_task j x t) = has_id i t.
Proof.
  unfold edited_task, has_id. destruct (strict_eq (todo_id t) j); reflexivity.
Qed.

(** What one operation does to the tasks that carry a given id in use. *)
Lemma filter_id_apply_op used s op ops i :
  tracks JSON_stringify used s (op :: ops) -> In i used ->
  filter (has_id i) (todos (apply_op JSON_stringify s op)) =
  match op with
  | Add _ => filter (has_id i) (todos s)
  | Remove j =>
      if strict_eq i j then [] else filter (has_id i) (todos s)
  | Toggle j => map (toggled_task j) (filter (has_id i) (todos s))
  | Edit j x =>
      if blank x then filter (has_id i) (todos s)
      else map (edited_task j (trim x)) (filter (has_id i) (todos s))
  end.
Proof.
  intros Htr Hi. rewrite todos_apply_op.
  destruct op as [a | j | j | j x].
  - destruct (blank a) eqn:Hb; [reflexivity |].
    rewrite filter_app. cbn [filter].
    assert (Hne : has_id i (added_task s a) = false).
    { apply has_id_false. cbn. intros E.
      apply (tracks_fresh used s a ops Htr Hb). rewrite E. exact Hi. }
    rewrite Hne. apply app_nil_r.
  - rewrite filter_filter_comm.
    destruct (strict_eq i j) eqn:E.
    + apply strict_eq_spec in E. subst j.
      apply filter_none. intros t Ht. apply filter_In in Ht.
      destruct Ht as [_ Ht]. rewrite Ht. reflexivity.
    + apply filter_all. intros t Ht. apply filter_In in Ht.
      destruct Ht as [_ Ht]. apply has_id_true in Ht.
      apply negb_true_iff. apply has_id_false. rewrite Ht.
      apply strict_eq_false. exact E.
  - apply filter_map_commute. intros t. apply has_id_toggled.
  - destruct (blank x); [reflexivity |].
    apply filter_map_commute. intros t. apply has_id_edited.
Qed.

Lemma used_after_incl used s op i : In i used -> In i (used_after used s op).
Proof.
  intros H. destruct op as [a | | |]; cbn; try exact H.
  destruct (blank a); [exact H |]. apply in_or_app. left. exact H.
Qed.

(** An id that was handed out and whose task is gone does not come
    back. *)
Lemma gone_stays_gone ops :
  forall used s i,
    tracks JSON_stringify used s ops -> In i used ->
    filter (has_id i) (todos s) = [] ->
    filter (has_id i) (todos (apply_ops JSON_stringify s ops)) = [].
Proof.
  induction ops as [| op ops IH]; intros used s i Htr Hi Hnone.
  - exact Hnone.
  - rewrite apply_ops_cons.
    apply (IH (used_after used s op)).
    + apply tracks_step. exact Htr.
    + apply used_after_incl. exact Hi.
    + rewrite (filter_id_apply_op used s op ops i Htr Hi), Hnone.
      destruct op as [a | j | j | j x]; try reflexivity.
      * destruct (strict_eq i j); reflexivity.
      * destruct (blank x); reflexivity.
Qed.

(** The task that carries an id, followed through a sequence of
    operations. *)
Lemma task_history ops :
  forall used s i t,
    tracks JSON_stringify used s ops -> In i used ->
    todo_id t = i ->
    filter (has_id i) (todos s) = [t] ->
    filter (has_id i) (todos (apply_ops JSON_stringify s ops)) =
    if deleted i ops then []
    else [mkTodo i (latest_text i ops (todo_text t))
                 (toggled i ops (todo_completed t)) (todo_createdAt t)].
Proof.
  induction ops as [| op ops IH]; intros used s i t Htr Hi Hid Ht.
  - cbn. rewrite Ht. destruct t; cbn in *. subst. reflexivity.
  - rewrite apply_ops_cons.
    pose proof (tracks_step JSON_stringify used s op ops Htr) as Htr'.
    pose proof (used_after_incl used s op i Hi) as Hi'.
    pose proof (filter_id_apply_op used s op ops i Htr Hi) as Hop.
    rewrite Ht in Hop.
    destruct op as [a | j | j | j x]; cbn [deleted latest_text toggled].
    + apply (IH _ _ i t Htr' Hi' Hid Hop).
    + destruct (strict_eq i j) eqn:E; cbn [orb].
      * apply (gone_stays_gone ops _ _ i Htr' Hi' Hop).
      * apply (IH _ _ i t Htr' Hi' Hid Hop).
    + cbn [map] in Hop.
      rewrite (IH _ _ i (toggled_task j t) Htr' Hi').
      * unfold toggled_task. rewrite Hid.
        destruct (strict_eq i j); reflexivity.
      * unfold toggled_task. destruct (strict_eq (todo_id t) j); exact Hid.
      * exact Hop.
    + unfold blank in *. destruct (String.eqb (trim x) "") eqn:Hb.
      * rewrite andb_false_r. apply (IH _ _ i t Htr' Hi' Hid Hop).
      * rewrite andb_true_r. cbn [map] in Hop.
        rewrite (IH _ _ i (edited_task j (trim x) t) Htr' Hi').
        -- unfold edited_task. rewrite Hid.
           destruct (strict_eq i j); reflexivity.
        -- unfold edited_task. destruct (strict_eq (todo_id t) j); exact Hid.
        -- exact Hop.
Qed.

End Histories.

Section SequenceProperties.

Variable JSON_stringify : json -> string.

Lemma clock_apply_op s op :
  readings (clock (apply_op JSON_stringify s op)) = readings (clock s)
  /\ (calls (clock s) <= calls (clock (apply_op JSON_stringify s op)))%nat
  /\ (forall a,
         op = Add a -> blank a = false ->
         (calls (clock s)
          < calls (clock (apply_op JSON_stringify s op)))%nat).
Proof.
  destruct op as [a | i | i | i x].
  - pose proof (clock_add JSON_stringify a s) as E. unfold add in E.
    rewrite E.
    destruct (String.eqb (trim a) "") eqn:Hb; cbn; repeat split; try lia.
    intros a' Heq Hb'. inversion Heq; subst a'. unfold blank in Hb'.
    congruence.
  - rewrite clock_apply_op_other by discriminate.
    repeat split; try lia. intros a H. discriminate.
  - rewrite clock_apply_op_other by discriminate.
    repeat split; try lia. intros a H. discriminate.
  - rewrite clock_apply_op_other by discriminate.
    repeat split; try lia. intros a H. discriminate.
Qed.

(** Every id handed out is a reading the clock had not given yet. *)
Lemma added_ids_readings ops :
  forall s x,
    In x (added_ids JSON_stringify s ops) ->
    exists k, (calls (clock s) <= k)%nat /\ x = JNum (readings (clock s) k).
Proof.
  induction ops as [| op ops IH]; intros s x Hin.
  - destruct Hin.
  - cbn [added_ids] in Hin. apply in_app_or in Hin.
    destruct Hin as [Hin | Hin].
    + destruct op as [a | | |]; try destruct Hin.
      destruct (blank a); [destruct Hin |].
      destruct Hin as [<- | []]. exists (calls (clock s)).
      split; [lia | reflexivity].
    + destruct (IH _ _ Hin) as [k [Hk ->]].
      destruct (clock_apply_op s op) as [Hr [Hc _]].
      exists k. rewrite Hr. split; [lia | reflexivity].
Qed.

(** With an increasing clock the ids handed out are pairwise distinct. *)
Lemma increasing_clock_distinct_ids ops :
  forall s, increasing (clock s) -> NoDup (added_ids JSON_stringify s ops).
Proof.
  induction ops as [| op ops IH]; intros s Hinc.
  - constructor.
  - cbn [added_ids].
    destruct (clock_apply_op s op) as [Hr [Hc Hlt]].
    assert (Hinc' : increasing (clock (apply_op JSON_stringify s op))).
    { intros m n Hmn. rewrite Hr. apply Hinc. exact Hmn. }
    destruct op as [a | | |]; cbn [app]; try (apply IH; exact Hinc').
    destruct (blank a) eqn:Hb; cbn [app]; [apply IH; exact Hinc' |].
    constructor; [| apply IH; exact Hinc'].
    intros Hin. apply added_ids_readings in Hin.
    destruct Hin as [k [Hk E]]. rewrite Hr in E.
    unfold next_id in E. inversion E as [E'].
    specialize (Hlt a eq_refl Hb).
    assert (Hlt' : (calls (clock s) < k)%nat) by lia.
    apply Hinc in Hlt'. lia.
Qed.

Lemma tracks_prefix pre :
  forall used s rest,
    tracks JSON_stringify used s (pre ++ rest) ->
    exists used',
      tracks JSON_stringify used' (apply_ops JSON_stringify s pre) rest.
Proof.
  induction pre as [| op pre IH]; intros used s rest Htr.
  - exists used. exact Htr.
  - rewrite apply_ops_cons. cbn [app] in Htr.
    apply (IH (used_after used s op)). apply tracks_step. exact Htr.
Qed.

Lemma tracks_empty cap c ops :
  NoDup (added_ids JSON_stringify (empty_state cap c) ops) ->
  tracks JSON_stringify [] (empty_state cap c) ops.
Proof.
  intros H. repeat split.
  - intros x [].
  - constructor.
  - exact H.
Qed.

Lemma clock_apply_add s a :
  blank a = false ->
  clock (apply_op JSON_stringify s (Add a)) =
  mkClock (readings (clock s)) (S (S (calls (clock s)))).
Proof.
  intros H. pose proof (clock_add JSON_stringify a s) as E.
  unfold add in E. rewrite E. unfold blank in H. rewrite H. reflexivity.
Qed.

(** C8, as the code has it. Take any sequence of add, edit, toggle and
    delete operations from the empty list in which the adds hand out
    pairwise distinct ids. Then (1) the length of the resulting list is the
    number of adds whose text is not blank minus the number of deletes that
    name an id the list holds when they run; (2) for every add that went
    through, the resulting list holds no task with its id when a later
    operation deleted that id, and otherwise exactly one, whose text is the
    trimmed text of the latest non-blank edit of that id after the add (the
    trimmed added text when there is none), whose completed flag is false
    negated once per later toggle of that id, and whose createdAt is the
    clock reading the add took; (3) the ids of the resulting list are the ids
    handed out, in the order of the adds, with the deleted ones left out.
    Scenario: add of A, add of B with a different id, delete of the id of A
    leaves the list with the task B alone. *)
Theorem operation_sequences_from_empty_list (cap : nat) (c : Clock) :
  (forall ops,
      NoDup (added_ids JSON_stringify (empty_state cap c) ops) ->
      (List.length
         (todos (apply_ops JSON_stringify (empty_state cap c) ops))
       + deletes_applied JSON_stringify (empty_state cap c) ops
       = adds_applied ops)%nat
      /\ (forall pre a post,
             ops = pre ++ Add a :: post -> blank a = false ->
             let s1 := apply_ops JSON_stringify (empty_state cap c) pre in
             filter (has_id (next_id s1))
                    (todos (apply_ops JSON_stringify (empty_state cap c) ops))
             = if deleted (next_id s1) post then []
               else [mkTodo (next_id s1)
                            (latest_text (next_id s1) post (JStr (trim a)))
                            (toggled (next_id s1) post (JBool false))
                            (JNum (readings (clock s1)
                                            (S (calls (clock s1)))))])
      /\ subseq
           (ids (todos (apply_ops JSON_stringify (empty_state cap c) ops)))
           (added_ids JSON_stringify (empty_state cap c) ops))
  /\ (readings c (calls c) <> readings c (S (S (calls c))) ->
      todos (apply_ops JSON_stringify (empty_state cap c)
                       [Add "A"; Add "B";
                        Remove (JNum (readings c (calls c)))])
      = [mkTodo (JNum (readings c (S (S (calls c))))) (JStr "B")
                (JBool false)
                (JNum (readings c (S (S (S (calls c))))))]).
Proof.
  split.
  - intros ops Hnd.
    pose proof (tracks_empty cap c ops Hnd) as Htr.
    split; [| split].
    + apply (length_apply_ops JSON_stringify ops [] _ Htr).
    + intros pre a post -> Hb s1.
      destruct (tracks_prefix pre [] _ _ Htr) as [used Htr1].
      fold s1 in Htr1.
      pose proof (tracks_fresh JSON_stringify used s1 a post Htr1 Hb)
        as Hfresh.
      pose proof (tracks_step JSON_stringify used s1 (Add a) post Htr1)
        as Htr2.
      cbn [used_after] in Htr2. rewrite Hb in Htr2.
      rewrite apply_ops_app, apply_ops_cons. fold s1.
      assert (Hin : In (next_id s1) (used ++ [next_id s1]))
        by (apply in_or_app; right; left; reflexivity).
      assert (Hone : filter (has_id (next_id s1))
                       (todos (apply_op JSON_stringify s1 (Add a)))
                     = [added_task s1 a]).
      { rewrite todos_apply_op, Hb, filter_app.
        rewrite not_in_ids_filter.
        - cbn [filter app]. unfold has_id. cbn [added_task todo_id].
          rewrite strict_eq_refl. reflexivity.
        - intros Hi. apply Hfresh. destruct Htr1 as [Hincl _].
          apply Hincl. exact Hi. }
      apply (task_history JSON_stringify post _ _ (next_id s1)
                          (added_task s1 a) Htr2 Hin eq_refl Hone).
    + apply (ids_subseq JSON_stringify ops (empty_state cap c)).
  - intros Hne.
    unfold apply_ops. cbn [fold_left].
    rewrite todos_apply_op. rewrite todos_apply_op.
    change (blank "B") with false. cbn iota.
    rewrite todos_apply_op.
    change (blank "A") with false. cbn iota.
    unfold added_task, next_id.
    rewrite (clock_apply_add (empty_state cap c) "A" eq_refl).
    cbn [todos empty_state clock readings calls app filter has_id todo_id
         strict_eq negb].
    rewrite Z.eqb_refl. cbn [negb].
    destruct (Z.eqb_spec (readings c (S (S (calls c)))) (readings c (calls c)))
      as [E | _].
    + exfalso. apply Hne. symmetry. exact E.
    + reflexivity.
Qed.

(** C3, evaluated. Two adds that read the same millisecond give two tasks
    the same id: from the empty list, with a clock that stands still, the
    list after the two adds holds that id twice, so the ids of the list are
    not pairwise distinct, and a delete of that id removes both tasks. *)
Theorem adds_in_one_millisecond_share_an_id (cap : nat) (t : Z) :
  let s := apply_ops JSON_stringify (empty_state cap (frozen t))
                     [Add "a"; Add "b"] in
  todos s = [mkTodo (JNum t) (JStr "a") (JBool false) (JNum t);
             mkTodo (JNum t) (JStr "b") (JBool false) (JNum t)]
  /\ ~ NoDup (ids (todos s))
  /\ todos (remove JSON_stringify (JNum t) s) = [].
Proof.
  intros s.
  assert (E : todos s = [mkTodo (JNum t) (JStr "a") (JBool false) (JNum t);
                         mkTodo (JNum t) (JStr "b") (JBool false) (JNum t)]).
  { subst s. unfold apply_ops. cbn [fold_left].
    rewrite todos_apply_op. change (blank "b") with false. cbn iota.
    rewrite todos_apply_op. change (blank "a") with false. cbn iota.
    unfold added_task, next_id.
    rewrite (clock_apply_add (empty_state cap (frozen t)) "a" eq_refl).
    reflexivity. }
  split; [exact E |]. split.
  - rewrite E. cbn. intros H. inversion H as [| x l Hnin _]; subst.
    apply Hnin. left. reflexivity.
  - rewrite todos_remove, E. cbn. rewrite Z.eqb_refl. reflexivity.
Qed.

End SequenceProperties.

(* ================================================================== *)
(** ** The reference parser reads what the reference printer writes *)

Module RefJSONFacts.

Import RefJSON.

Lemma str_append_assoc (a b c : string) :
  ((a ++ b) ++ c = a ++ (b ++ c))%string.
Proof. induction a as [| x a IH]; cbn; [| rewrite IH]; reflexivity. Qed.

Lemma str_append_nil_r (a : string) : (a ++ "")%string = a.
Proof. induction a as [| x a IH]; cbn; [| rewrite IH]; reflexivity. Qed.

Lemma str_length_append (a b : string) :
  String.length (a ++ b) = (String.length a + String.length b)%nat.
Proof. induction a as [| x a IH]; cbn; [| rewrite IH]; reflexivity. Qed.

(** One character of a string, written and read back. *)
Lemma parse_escape_char (a : ascii) (r : string) :
  parse_string_body (escape_char a ++ r) =
  match parse_string_body r with
  | Some (str, rest) => Some (String a str, rest)
  | None => None
  end.
Proof.
  destruct a as [[|] [|] [|] [|] [|] [|] [|] [|]]; reflexivity.
Qed.

Lemma parse_escaped (x rest : string) :
  parse_string_body (escape x ++ String dquote rest) = Some (x, rest).
Proof.
  induction x as [| a x IH].
  - reflexivity.
  - cbn [escape]. rewrite str_append_assoc, parse_escape_char, IH. reflexivity.
Qed.

Lemma span_digits_uint (d : Decimal.uint) (rest : string) :
  ends_number rest ->
  span_digits (NilEmpty.string_of_uint d ++ rest) =
    (NilEmpty.string_of_uint d, rest).
Proof.
  intros H. induction d; cbn [NilEmpty.string_of_uint append];
    try (cbn [span_digits]; change (is_digit _) with true; cbv iota;
         rewrite IHd; reflexivity).
  destruct rest as [| a r]; [reflexivity |].
  cbn in *. rewrite H. reflexivity.
Qed.

Lemma to_uint_not_nil (p : positive) : Pos.to_uint p <> Decimal.Nil.
Proof.
  intros E.
  pose proof (DecimalPos.Unsigned.of_to p) as H. rewrite E in H. discriminate.
Qed.

Lemma parse_print_num (z : Z) (rest : string) :
  ends_number rest -> parse_num (print_num z ++ rest) = Some (z, rest).
Proof.
  intros H. unfold print_num.
  assert (Hz : NilZero.int_of_string (NilZero.string_of_int (Z.to_int z))
               = Some (Z.to_int z)).
  { apply NilZero.isi; destruct z; cbn; try discriminate;
      intros E; inversion E as [E']; apply (to_uint_not_nil _ E'). }
  destruct (Z.to_int z) as [d | d] eqn:Ez.
  - cbn [NilZero.string_of_int] in *.
    assert (Hd : d <> Decimal.Nil).
    { destruct z; cbn in Ez; inversion Ez; try discriminate;
        apply to_uint_not_nil. }
    assert (Hs : NilZero.string_of_uint d = NilEmpty.string_of_uint d)
      by (destruct d; try reflexivity; contradiction).
    rewrite Hs in *.
    pose proof (span_digits_uint d rest H) as Hsp.
    rewrite <- (DecimalZ.of_to z), Ez.
    destruct d; try contradiction;
      cbn [NilEmpty.string_of_uint append] in *;
      unfold parse_num; change (Ascii.eqb _ "-") with false; cbv iota;
      rewrite Hsp, Hz; reflexivity.
  - cbn [NilZero.string_of_int] in *.
    assert (Hd : d <> Decimal.Nil).
    { destruct z; cbn in Ez; inversion Ez; try discriminate;
        apply to_uint_not_nil. }
    assert (Hs : NilZero.string_of_uint d = NilEmpty.string_of_uint d)
      by (destruct d; try reflexivity; contradiction).
    rewrite Hs in *.
    rewrite <- (DecimalZ.of_to z), Ez.
    cbn [append]. unfold parse_num.
    change (Ascii.eqb "-" "-") with true. cbv iota.
    rewrite (span_digits_uint d rest H), Hz. reflexivity.
Qed.

Lemma stringify_arr l :
  stringify (JArr l) = ("[" ++ print_elems l ++ "]")%string.
Proof. reflexivity. Qed.

Lemma stringify_obj kv :
  stringify (JObj kv) = ("{" ++ print_members kv ++ "}")%string.
Proof. reflexivity. Qed.

Lemma print_num_head z :
  exists c r, print_num z = String c r /\ num_head c = true.
Proof.
  unfold print_num.
  destruct (Z.to_int z) as [d | d] eqn:Ez.
  - assert (Hd : d <> Decimal.Nil).
    { destruct z; cbn in Ez; inversion Ez; try discriminate;
        apply to_uint_not_nil. }
    destruct d; try contradiction; cbn; eexists; eexists;
      (split; [reflexivity | reflexivity]).
  - cbn. eexists; eexists. split; reflexivity.
Qed.

Lemma num_head_value_head c : num_head c = true -> value_head c = true.
Proof.
  destruct c as [[|] [|] [|] [|] [|] [|] [|] [|]]; cbn; intros H;
    (reflexivity || discriminate H).
Qed.

Lemma stringify_head v more :
  exists c r, (stringify v ++ more)%string = String c r /\ value_head c = true.
Proof.
  destruct v as [| [|] | z | x | l | kv].
  - eexists; eexists; split; reflexivity.
  - eexists; eexists; split; reflexivity.
  - eexists; eexists; split; reflexivity.
  - destruct (print_num_head z) as [c [r [E Hc]]].
    exists c, (r ++ more)%string. cbn [stringify]. rewrite E.
    split; [reflexivity | apply num_head_value_head; exact Hc].
  - eexists; eexists; split; reflexivity.
  - rewrite stringify_arr. eexists; eexists; split; reflexivity.
  - rewrite stringify_obj. eexists; eexists; split; reflexivity.
Qed.

(** A number is read by [parse_num]. *)
Lemma parse_value_num f c r :
  num_head c = true ->
  parse_value (S f) (String c r) =
  match parse_num (String c r) with
  | Some (z, rest) => Some (JNum z, rest)
  | None => None
  end.
Proof.
  destruct c as [[|] [|] [|] [|] [|] [|] [|] [|]]; cbn [num_head];
    intros H; try discriminate H; reflexivity.
Qed.

Lemma parse_value_arr f c r :
  value_head c = true ->
  parse_value (S f) (String "[" (String c r)) =
  match parse_elements f (String c r) with
  | Some (l, rest) => Some (JArr l, rest)
  | None => None
  end.
Proof.
  unfold value_head. intros H.
  apply andb_prop in H. destruct H as [H H3].
  apply andb_prop in H. destruct H as [H1 H2].
  apply negb_true_iff in H1, H2, H3.
  cbn [parse_value]. change (skip_ws (String "[" (String c r)))
    with (String "[" (String c r)).
  change (Ascii.eqb "[" dquote) with false.
  change (Ascii.eqb "[" "[") with true. cbv iota.
  cbn [skip_ws]. rewrite H1, H2. reflexivity.
Qed.

Lemma parse_elements_comma f s v r :
  parse_value f s = Some (v, String "," r) ->
  parse_elements (S f) s =
  match parse_elements f r with
  | Some (vs, rest) => Some (v :: vs, rest)
  | None => None
  end.
Proof. intros H. cbn [parse_elements]. rewrite H. reflexivity. Qed.

Lemma parse_elements_close f s v r :
  parse_value f s = Some (v, String "]" r) ->
  parse_elements (S f) s = Some ([v], r).
Proof. intros H. cbn [parse_elements]. rewrite H. reflexivity. Qed.

Lemma parse_print_elems l :
  Forall reads_back l -> l <> [] ->
  forall n rest,
    (fuelE l <= n)%nat ->
    parse_elements n (print_elems l ++ String "]" rest) = Some (l, rest).
Proof.
  induction 1 as [| x r Hx _ IH]; intros Hne n rest Hn.
  - contradiction.
  - destruct n as [| f]; [cbn in Hn; lia |].
    assert (Hf : (fuelV x + fuelE r <= f)%nat) by (cbn in Hn; lia).
    destruct r as [| y r'].
    + apply parse_elements_close. cbn [print_elems].
      apply Hx; [lia | reflexivity].
    + change (print_elems (x :: y :: r'))
        with (stringify x ++ "," ++ print_elems (y :: r'))%string.
      rewrite str_append_assoc.
      change (("," ++ print_elems (y :: r')) ++ String "]" rest)%string
        with (String "," (print_elems (y :: r') ++ String "]" rest)).
      rewrite (parse_elements_comma f _ x
                 (print_elems (y :: r') ++ String "]" rest)).
      * rewrite IH; [reflexivity | discriminate | lia].
      * apply Hx; [lia | reflexivity].
Qed.

Lemma parse_members_comma f k s v r :
  parse_value f s = Some (v, String "," r) ->
  parse_members (S f) (print_string k ++ String ":" s) =
  match parse_members f r with
  | Some (kv, rest) => Some ((k, v) :: kv, rest)
  | None => None
  end.
Proof.
  intros H. unfold print_string. cbn [append]. rewrite str_append_assoc.
  cbn [append parse_members].
  change (skip_ws (String dquote ?x)) with (String dquote x).
  cbv iota. change (Ascii.eqb dquote dquote) with true. cbv iota.
  rewrite parse_escaped. cbn [skip_ws].
  change (is_json_ws ":") with false. cbv iota.
  change (Ascii.eqb ":" ":") with true. cbv iota.
  rewrite H. reflexivity.
Qed.

Lemma parse_members_close f k s v r :
  parse_value f s = Some (v, String "}" r) ->
  parse_members (S f) (print_string k ++ String ":" s) = Some ([(k, v)], r).
Proof.
  intros H. unfold print_string. cbn [append]. rewrite str_append_assoc.
  cbn [append parse_members].
  change (skip_ws (String dquote ?x)) with (String dquote x).
  cbv iota. change (Ascii.eqb dquote dquote) with true. cbv iota.
  rewrite parse_escaped. cbn [skip_ws].
  change (is_json_ws ":") with false. cbv iota.
  change (Ascii.eqb ":" ":") with true. cbv iota.
  rewrite H. reflexivity.
Qed.

Lemma parse_print_members kv :
  Forall (fun p => reads_back (snd p)) kv -> kv <> [] ->
  forall n rest,
    (fuelM kv <= n)%nat ->
    parse_members n (print_members kv ++ String "}" rest) = Some (kv, rest).
Proof.
  induction 1 as [| [k x] r Hx _ IH]; intros Hne n rest Hn.
  - contradiction.
  - cbn [snd] in Hx.
    destruct n as [| f]; [cbn in Hn; lia |].
    assert (Hf : (fuelV x + fuelM r <= f)%nat) by (cbn in Hn; lia).
    destruct r as [| [k' y] r'].
    + change (print_members [(k, x)])
        with (print_string k ++ ":" ++ stringify x)%string.
      rewrite str_append_assoc.
      change ((":" ++ stringify x) ++ String "}" rest)%string
        with (String ":" (stringify x ++ String "}" rest)).
      apply parse_members_close. apply Hx; [lia | reflexivity].
    + change (print_members ((k, x) :: (k', y) :: r'))
        with (print_string k ++ ":" ++ stringify x ++ ","
              ++ print_members ((k', y) :: r'))%string.
      rewrite str_append_assoc.
      change ((":" ++ stringify x ++ "," ++ print_members ((k', y) :: r'))
              ++ String "}" rest)%string
        with (String ":" ((stringify x ++ ","
                           ++ print_members ((k', y) :: r'))
                          ++ String "}" rest)).
      rewrite str_append_assoc.
      change (("," ++ print_members ((k', y) :: r')) ++ String "}" rest)%string
        with (String "," (print_members ((k', y) :: r') ++ String "}" rest)).
      rewrite (parse_members_comma f k _ x
                 (print_members ((k', y) :: r') ++ String "}" rest)).
      * rewrite IH; [reflexivity | discriminate | lia].
      * apply Hx; [lia | reflexivity].
Qed.

Lemma parse_value_obj f r :
  parse_value (S f) (String "{" (String dquote r)) =
  match parse_members f (String dquote r) with
  | Some (kv, rest) => Some (JObj kv, rest)
  | None => None
  end.
Proof. reflexivity. Qed.

Theorem parse_stringify_value (v : json) : reads_back v.
Proof.
  induction v as [| b | z | x | l IH | kv IH] using json_ind';
    intros n rest Hn Hrest;
    (destruct n as [| f]; [cbn in Hn; lia |]).
  - reflexivity.
  - destruct b; reflexivity.
  - cbn [stringify].
    destruct (print_num_head z) as [c [r [E Hc]]].
    pose proof (parse_print_num z rest Hrest) as Hp.
    rewrite E in *. cbn [append] in *.
    rewrite (parse_value_num f c _ Hc), Hp. reflexivity.
  - cbn [stringify]. unfold print_string. cbn [append].
    rewrite str_append_assoc. cbn [append parse_value].
    change (skip_ws (String dquote ?y)) with (String dquote y).
    cbv iota. change (Ascii.eqb dquote dquote) with true. cbv iota.
    rewrite parse_escaped. reflexivity.
  - rewrite stringify_arr. rewrite !str_append_assoc. cbn [append].
    destruct l as [| x r].
    + reflexivity.
    + destruct (stringify_head x
                  (match r with
                   | [] => EmptyString
                   | _ => "," ++ print_elems r
                   end ++ String "]" rest)%string)
        as [c [r0 [E Hc]]].
      assert (E' : (print_elems (x :: r) ++ String "]" rest)%string
                   = String c r0).
      { rewrite <- E. destruct r as [| y r']; [reflexivity |].
        change (print_elems (x :: y :: r'))
          with (stringify x ++ "," ++ print_elems (y :: r'))%string.
        rewrite str_append_assoc. reflexivity. }
      rewrite E', (parse_value_arr f c r0 Hc), <- E'.
      rewrite (parse_print_elems (x :: r) IH); [reflexivity | discriminate |].
      change (fuelV (JArr (x :: r))) with (S (fuelE (x :: r))) in Hn. lia.
  - rewrite stringify_obj. rewrite !str_append_assoc. cbn [append].
    destruct kv as [| [k x] r].
    + reflexivity.
    + assert (E' : exists r0,
                 (print_members ((k, x) :: r) ++ String "}" rest)%string
                 = String dquote r0).
      { destruct r as [| [k' y] r']; eexists; reflexivity. }
      destruct E' as [r0 E'].
      rewrite E', parse_value_obj, <- E'.
      rewrite (parse_print_members ((k, x) :: r) IH);
        [reflexivity | discriminate |].
      change (fuelV (JObj ((k, x) :: r))) with (S (fuelM ((k, x) :: r))) in Hn.
      lia.
Qed.

Lemma fuelE_le_length l :
  Forall (fun v => (fuelV v <= String.length (stringify v))%nat) l ->
  (fuelE l <= String.length (print_elems l) + 1)%nat.
Proof.
  induction 1 as [| x r Hx _ IH].
  - cbn. lia.
  - destruct r as [| y r'].
    + cbn [print_elems fuelE]. lia.
    + change (print_elems (x :: y :: r'))
        with (stringify x ++ "," ++ print_elems (y :: r'))%string.
      change (fuelE (x :: y :: r'))
        with (S (fuelV x + fuelE (y :: r'))).
      rewrite !str_length_append. cbn [String.length]. lia.
Qed.

Lemma fuelM_le_length kv :
  Forall (fun p => (fuelV (snd p) <= String.length (stringify (snd p)))%nat)
         kv ->
  (fuelM kv <= String.length (print_members kv) + 1)%nat.
Proof.
  induction 1 as [| [k x] r Hx _ IH].
  - cbn. lia.
  - cbn [snd] in Hx. destruct r as [| [k' y] r'].
    + change (print_members [(k, x)])
        with (print_string k ++ ":" ++ stringify x)%string.
      change (fuelM [(k, x)]) with (S (fuelV x + 0)).
      rewrite !str_length_append. cbn [String.length]. lia.
    + change (print_members ((k, x) :: (k', y) :: r'))
        with (print_string k ++ ":" ++ stringify x ++ ","
              ++ print_members ((k', y) :: r'))%string.
      change (fuelM ((k, x) :: (k', y) :: r'))
        with (S (fuelV x + fuelM ((k', y) :: r'))).
      rewrite !str_length_append. cbn [String.length]. lia.
Qed.

Lemma fuelV_le_length (v : json) :
  (fuelV v <= String.length (stringify v))%nat.
Proof.
  induction v as [| b | z | x | l IH | kv IH] using json_ind'.
  - cbn. lia.
  - destruct b; cbn; lia.
  - cbn [stringify fuelV].
    destruct (print_num_head z) as [c [r [E _]]]. rewrite E. cbn. lia.
  - cbn. lia.
  - rewrite stringify_arr.
    change (fuelV (JArr l)) with (S (fuelE l)).
    pose proof (fuelE_le_length l IH).
    rewrite !str_length_append. cbn [String.length]. lia.
  - rewrite stringify_obj.
    change (fuelV (JObj kv)) with (S (fuelM kv)).
    pose proof (fuelM_le_length kv IH).
    rewrite !str_length_append. cbn [String.length]. lia.
Qed.

(** The parser reads back every value the printer writes. *)
Theorem parse_stringify (v : json) : parse (stringify v) = Some v.
Proof.
  unfold parse.
  pose proof (parse_stringify_value v (S (String.length (stringify v)))
                EmptyString) as H.
  rewrite str_append_nil_r in H. rewrite H.
  - reflexivity.
  - pose proof (fuelV_le_length v). lia.
  - exact I.
Qed.

Lemma stringify_not_empty (v : json) : stringify v <> "".
Proof.
  destruct (stringify_head v EmptyString) as [c [r [E _]]].
  rewrite str_append_nil_r in E. rewrite E. discriminate.
Qed.

End RefJSONFacts.

(** C1. Round trip. Let L be a list of well-formed tasks (non-zero
    integer id, non-empty text, boolean completed, non-zero integer
    createdAt) whose text fits the slot. With the reference printer and
    parser, loading after saving L returns L, without consulting the clock.
    The same holds over any platform printer and parser that read back the
    text of L as the value written; and through the component: the render
    that follows a change of the list writes the text of the list, which
    does not depend on the exiting ids, so that these are never written. *)
Theorem save_then_load_round_trip :
  (forall (L : list Todo) (st : Storage) (c : Clock),
      forallb well_formed L = true ->
      (String.length (RefJSON.stringify (todos_json L)) <= capacity st)%nat ->
      loadTodosFromStorage RefJSON.parse
        (saveTodos RefJSON.stringify L st) c = (L, c))
  /\ (forall (JSON_parse : string -> option json)
             (JSON_stringify : json -> string)
             (L : list Todo) (st : Storage) (c : Clock),
         forallb well_formed L = true ->
         JSON_stringify (todos_json L) <> "" ->
         JSON_parse (JSON_stringify (todos_json L)) = Some (todos_json L) ->
         (String.length (JSON_stringify (todos_json L)) <= capacity st)%nat ->
         loadTodosFromStorage JSON_parse
           (saveTodos JSON_stringify L st) c = (L, c)
         /\ (forall s exiting,
                storage s = st ->
                let s' := render JSON_stringify
                                 (setExitingIds exiting (setTodos L s)) in
                getItem (storage s') = Some (JSON_stringify (todos_json L))
                /\ loadTodosFromStorage JSON_parse (storage s') c = (L, c))).
Proof.
  split.
  - intros L st c Hwf Hfit.
    apply (round_trip_with_codec RefJSON.parse RefJSON.stringify L st c Hwf).
    + apply RefJSONFacts.stringify_not_empty.
    + apply RefJSONFacts.parse_stringify.
    + exact Hfit.
  - intros JSON_parse JSON_stringify L st c.
    apply round_trip_with_codec.
Qed.

(* ================================================================== *)
(** ** Further properties of the operations on the list *)

Section ListOperations.

Variable JSON_stringify : json -> string.

Lemma subseq_filter {A} (p : A -> bool) (l : list A) : subseq (filter p l) l.
Proof.
  induction l as [| x l IH]; cbn.
  - constructor.
  - destruct (p x); constructor; exact IH.
Qed.

Lemma filter_idempotent {A} (p : A -> bool) (l : list A) :
  filter p (filter p l) = filter p l.
Proof.
  induction l as [| x l IH]; cbn.
  - reflexivity.
  - destruct (p x) eqn:E; cbn; rewrite ?E, IH; reflexivity.
Qed.

(** X6. For an id that is a primitive value (a number, a string, a
    boolean or null, for which the equality of the model is the !== of line
    99), delete(id) leaves no task with the id, keeps every other task, in
    the order they had, changes nothing when no task has the id, and changes
    nothing more when it is repeated; the input text, the exiting ids, the
    pending timeouts and the clock are untouched. *)
Theorem delete_removes_exactly_the_matching_tasks (id : json) (s : State) :
  primitive id = true ->
  (forall t, In t (todos (remove JSON_stringify id s)) -> todo_id t <> id)
  /\ (forall t, In t (todos s) -> todo_id t <> id ->
                In t (todos (remove JSON_stringify id s)))
  /\ subseq (todos (remove JSON_stringify id s)) (todos s)
  /\ (~ In id (ids (todos s)) ->
      todos (remove JSON_stringify id s) = todos s)
  /\ todos (remove JSON_stringify id (remove JSON_stringify id s))
     = todos (remove JSON_stringify id s)
  /\ inputValue (remove JSON_stringify id s) = inputValue s
  /\ exitingIds (remove JSON_stringify id s) = exitingIds s
  /\ timers (remove JSON_stringify id s) = timers s
  /\ clock (remove JSON_stringify id s) = clock s.
Proof.
  intros _. rewrite !todos_remove.
  split; [| split; [| split; [| split; [| split]]]].
  - intros t Ht. apply filter_In in Ht. destruct Ht as [_ Ht].
    apply negb_true_iff in Ht. apply has_id_false in Ht. exact Ht.
  - intros t Hin Hne. apply filter_In. split; [exact Hin |].
    apply negb_true_iff. apply has_id_false. exact Hne.
  - apply subseq_filter.
  - apply length_delete_miss.
  - apply filter_idempotent.
  - unfold remove, apply_op. cbn [events_of run fold_left].
    rewrite inputValue_step, exitingIds_step, timers_step, clock_step.
    cbn. auto.
Qed.

Lemma toggled_task_thrice id t :
  toggled_task id (toggled_task id (toggled_task id t)) = toggled_task id t.
Proof.
  unfold toggled_task. destruct (strict_eq (todo_id t) id) eqn:E; cbn;
    rewrite ?E; cbn; rewrite ?E; [| reflexivity].
  unfold js_not. cbn [truthy].
  destruct (truthy (todo_completed t)); reflexivity.
Qed.

Lemma toggled_task_twice id t :
  boolean_flag t = true -> toggled_task id (toggled_task id t) = t.
Proof.
  unfold toggled_task, boolean_flag. intros H.
  destruct (strict_eq (todo_id t) id) eqn:E; cbn; rewrite ?E; [| reflexivity].
  destruct t as [i x d ca]. cbn in *.
  destruct d as [| b | | | |]; try discriminate.
  destruct b; reflexivity.
Qed.

Lemma toggled_task_comm i j t :
  toggled_task i (toggled_task j t) = toggled_task j (toggled_task i t).
Proof.
  unfold toggled_task.
  destruct (strict_eq (todo_id t) i) eqn:Ei, (strict_eq (todo_id t) j) eqn:Ej;
    cbn; rewrite ?Ei, ?Ej; reflexivity.
Qed.

Lemma todos_toggle' id s :
  todos (toggle JSON_stringify id s) = map (toggled_task id) (todos s).
Proof. apply todos_toggle. Qed.

(** X8. Toggling an id twice gives back the list when the flags of the list
    are booleans; whatever the flags are, a third toggle gives what the
    first gave; and the toggles of two ids can be done in either order. *)
Theorem toggle_twice_restores_the_list (i j : json) (s : State) :
  (forallb boolean_flag (todos s) = true ->
   todos (toggle JSON_stringify i (toggle JSON_stringify i s)) = todos s)
  /\ todos (toggle JSON_stringify i
              (toggle JSON_stringify i (toggle JSON_stringify i s)))
     = todos (toggle JSON_stringify i s)
  /\ todos (toggle JSON_stringify i (toggle JSON_stringify j s))
     = todos (toggle JSON_stringify j (toggle JSON_stringify i s)).
Proof.
  rewrite !todos_toggle', !map_map.
  split; [| split].
  - intros H. rewrite <- (map_id (todos s)) at 2.
    apply map_ext_in. intros t Ht. apply toggled_task_twice.
    rewrite forallb_forall in H. apply H. exact Ht.
  - apply map_ext. intros t. apply toggled_task_thrice.
  - apply map_ext. intros t. apply toggled_task_comm.
Qed.

Lemma todos_edit' id x s :
  todos (edit JSON_stringify id x s) =
  if blank x then todos s else map (edited_task id (trim x)) (todos s).
Proof. apply todos_edit. Qed.

Lemma edited_task_twice id x y t :
  edited_task id x (edited_task id y t) = edited_task id x t.
Proof.
  unfold edited_task. destruct (strict_eq (todo_id t) id) eqn:E; cbn;
    rewrite E; reflexivity.
Qed.

(** X9. The latest edit of an id wins: an edit with a text that is not blank
    makes an earlier edit of the same id irrelevant. An edit with an
    already trimmed text does the same as with the text as typed. No edit
    changes the ids, the flags or the creation times of the list, nor its
    length. *)
Theorem latest_edit_wins (id : json) (x y : string) (s : State) :
  (blank x = false ->
   todos (edit JSON_stringify id x (edit JSON_stringify id y s))
   = todos (edit JSON_stringify id x s))
  /\ todos (edit JSON_stringify id (trim x) s)
     = todos (edit JSON_stringify id x s)
  /\ ids (todos (edit JSON_stringify id x s)) = ids (todos s)
  /\ map todo_completed (todos (edit JSON_stringify id x s))
     = map todo_completed (todos s)
  /\ map todo_createdAt (todos (edit JSON_stringify id x s))
     = map todo_createdAt (todos s).
Proof.
  split; [| split; [| split; [| split]]].
  - intros Hx. rewrite !todos_edit', Hx.
    destruct (blank y); [reflexivity |].
    rewrite map_map. apply map_ext. intros t. apply edited_task_twice.
  - rewrite !todos_edit'. unfold blank. rewrite !trim_idempotent.
    reflexivity.
  - rewrite todos_edit'. destruct (blank x); [reflexivity |].
    apply ids_edited.
  - rewrite todos_edit'. destruct (blank x); [reflexivity |].
    rewrite map_map. apply map_ext. intros t. unfold edited_task.
    destruct (strict_eq (todo_id t) id); reflexivity.
  - rewrite todos_edit'. destruct (blank x); [reflexivity |].
    rewrite map_map. apply map_ext. intros t. unfold edited_task.
    destruct (strict_eq (todo_id t) id); reflexivity.
Qed.

(** X7. An add that is followed by the delete of the id it handed out gives
    back the list, when that id was not in use; when it was, the tasks that
    carried it are gone as well. *)
Theorem add_then_delete_gives_back_the_list (a : string) (s : State) :
  blank a = false ->
  todos (remove JSON_stringify (next_id s) (add JSON_stringify a s))
  = filter (fun t => negb (has_id (next_id s) t)) (todos s)
  /\ (~ In (next_id s) (ids (todos s)) ->
      todos (remove JSON_stringify (next_id s) (add JSON_stringify a s))
      = todos s).
Proof.
  intros Hb.
  assert (E : todos (remove JSON_stringify (next_id s)
                            (add JSON_stringify a s))
              = filter (fun t => negb (has_id (next_id s) t)) (todos s)).
  { rewrite todos_remove, todos_add. unfold blank in Hb. rewrite Hb.
    rewrite filter_app. cbn [filter].
    unfold has_id at 2. cbn [todo_id next_id].
    unfold next_id. rewrite strict_eq_refl. cbn. apply app_nil_r. }
  split; [exact E |].
  intros Hfresh. rewrite E. apply length_delete_miss. exact Hfresh.
Qed.

End ListOperations.

(* ================================================================== *)
(** ** What is shown, and what is written *)

Section DisplayAndStorage.

Variable JSON_stringify : json -> string.

Lemma filter_partition_length {A} (p : A -> bool) (l : list A) :
  (List.length (filter p l)
   + List.length (filter (fun x => negb (p x)) l) = List.length l)%nat.
Proof.
  induction l as [| x l IH]; cbn.
  - reflexivity.
  - destruct (p x); cbn; lia.
Qed.

Lemma filter_nonempty_existsb {A} (p : A -> bool) (l : list A) :
  Nat.ltb 0 (List.length (filter p l)) = existsb p l.
Proof.
  induction l as [| x l IH]; cbn.
  - reflexivity.
  - destruct (p x); cbn; [reflexivity | exact IH].
Qed.

Lemma showsClearButton_spec s :
  showsClearButton s = existsb is_completed (todos s).
Proof.
  unfold showsClearButton, showsFooter, completedTasks.
  rewrite filter_nonempty_existsb.
  destruct (todos s) as [| t l]; [reflexivity |]. reflexivity.
Qed.

(** X10. The numbers the component shows agree with the list: completed plus
    remaining is the total; the message of the empty list is shown exactly
    when the counter is not. The button of clearCompleted is shown exactly
    when clearCompleted has something to do: with the button shown a click
    registers the removal, and without it clearCompleted would change
    nothing. Once the removal fires, no task counts as completed, the total
    is the number that remained at the click, and the button is gone. *)
Theorem counters_and_button_agree_with_the_list (s : State) :
  (completedTasks s + remainingTasks s = totalTasks s)%nat
  /\ showsEmptyMessage s = negb (showsCounter s)
  /\ (showsClearButton s = true ->
      timers (step JSON_stringify s ClickClear)
      = timers s ++ [mkTimer 400 (RemoveCompleted (todos s))])
  /\ (showsClearButton s = false -> clearCompleted s = s)
  /\ (forall s2 k,
         nth_error (timers s2) k
         = Some (mkTimer 400 (RemoveCompleted (todos s))) ->
         completedTasks (step JSON_stringify s2 (TimerFires k)) = 0%nat
         /\ totalTasks (step JSON_stringify s2 (TimerFires k))
            = remainingTasks s
         /\ showsClearButton (step JSON_stringify s2 (TimerFires k)) = false).
Proof.
  split; [| split; [| split; [| split]]].
  - unfold completedTasks, remainingTasks, totalTasks.
    apply filter_partition_length.
  - unfold showsEmptyMessage, showsCounter, totalTasks.
    destruct (todos s); reflexivity.
  - rewrite showsClearButton_spec. intros H.
    rewrite timers_step. cbn [handle].
    rewrite (clearCompleted_some s H). reflexivity.
  - rewrite showsClearButton_spec. apply clearCompleted_none.
  - intros s2 k Hk.
    destruct (fire_removal JSON_stringify s2 k _ _ Hk) as [Ht _].
    assert (Hnone : existsb is_completed
                      (todos (step JSON_stringify s2 (TimerFires k)))
                    = false).
    { rewrite Ht. apply filter_not_completed_none. }
    split; [| split].
    + unfold completedTasks.
      pose proof (filter_nonempty_existsb is_completed
                    (todos (step JSON_stringify s2 (TimerFires k)))) as E.
      rewrite Hnone in E. apply Nat.ltb_ge in E. lia.
    + unfold totalTasks, remainingTasks. rewrite Ht. reflexivity.
    + rewrite showsClearButton_spec. exact Hnone.
Qed.

(** What a handler does to the flag of the effect, to the list and to the
    slot. *)
Lemma handle_sets_or_keeps e s :
  storage (handle e s) = storage s
  /\ (todosSet (handle e s) = true
      \/ (todosSet (handle e s) = todosSet s
          /\ todos (handle e s) = todos s)).
Proof.
  destruct e as [v | | i | i | i x | | k]; cbn [handle].
  - split; [reflexivity | right; split; reflexivity].
  - unfold addTodo. destruct (String.eqb (trim (inputValue s)) "").
    + split; [reflexivity | right; split; reflexivity].
    + split; [reflexivity | left; reflexivity].
  - split; [reflexivity | left; reflexivity].
  - split; [reflexivity | left; reflexivity].
  - unfold updateTodo. destruct (String.eqb (trim x) "").
    + split; [reflexivity | right; split; reflexivity].
    + split; [reflexivity | left; reflexivity].
  - unfold clearCompleted. destruct (Nat.eqb _ 0).
    + split; [reflexivity | right; split; reflexivity].
    + split; [reflexivity | right; split; reflexivity].
  - unfold fire. destruct (nth_error (timers s) k) as [tm |].
    + destruct (timer_callback tm) as [| captured]; cbn.
      * split; [reflexivity | right; split; reflexivity].
      * split; [reflexivity | left; reflexivity].
    + split; [reflexivity | right; split; reflexivity].
Qed.

Lemma capacity_saveTodos l st :
  capacity (saveTodos JSON_stringify l st) = capacity st.
Proof.
  unfold saveTodos, setItem.
  destruct (Nat.leb _ (capacity st)); reflexivity.
Qed.

Lemma todosSet_render s : todosSet (render JSON_stringify s) = false.
Proof. unfold render. destruct (todosSet s) eqn:E; [reflexivity | exact E]. Qed.

Lemma render_idle s : todosSet s = false -> render JSON_stringify s = s.
Proof. intros H. unfold render. rewrite H. reflexivity. Qed.

(** X3. Every change of the list is written. After an event, either the list
    and the slot are as they were, or the text of the new list was written:
    when it fits the slot, the slot holds exactly that text; when it does
    not, the slot is as it was while the list in memory is the new one
    (nothing is rolled back). The capacity of the slot never changes. *)
Theorem every_change_of_the_list_is_written (s : State) (e : Event) :
  todosSet s = false ->
  todosSet (step JSON_stringify s e) = false
  /\ capacity (storage (step JSON_stringify s e)) = capacity (storage s)
  /\ ((todos (step JSON_stringify s e) = todos s
       /\ storage (step JSON_stringify s e) = storage s)
      \/ ((String.length
             (JSON_stringify (todos_json (todos (step JSON_stringify s e))))
           <= capacity (storage s))%nat
          /\ getItem (storage (step JSON_stringify s e))
             = Some (JSON_stringify
                       (todos_json (todos (step JSON_stringify s e)))))
      \/ ((capacity (storage s)
           < String.length
               (JSON_stringify
                  (todos_json (todos (step JSON_stringify s e)))))%nat
          /\ storage (step JSON_stringify s e) = storage s)).
Proof.
  intros Hidle. split; [apply todosSet_render |].
  destruct (handle_sets_or_keeps e s) as [Hst Hcase].
  rewrite todos_step. unfold step.
  destruct Hcase as [Hset | [Hkeep Htodos]].
  - rewrite storage_render_set by exact Hset. rewrite Hst.
    split; [apply capacity_saveTodos |].
    right.
    destruct (Nat.leb_spec
                (String.length
                   (JSON_stringify (todos_json (todos (handle e s)))))
                (capacity (storage s))) as [Hfit | Hbig].
    + left. split; [exact Hfit |].
      rewrite (saveTodos_fits JSON_stringify _ _ Hfit). reflexivity.
    + right. split; [exact Hbig |].
      apply saveTodos_too_long. exact Hbig.
  - rewrite render_idle by (rewrite Hkeep; exact Hidle).
    rewrite Hst. split; [reflexivity |]. left. split; [exact Htodos |].
    reflexivity.
Qed.

End DisplayAndStorage.

(* ================================================================== *)
(** ** Reloading the page *)

Section Reload.

Variable JSON_parse : string -> option json.
Variable JSON_stringify : json -> string.


















Lemma handle_readings e s : readings (clock (handle e s)) = readings (clock s).
Proof.
  destruct e as [v | | i | i | i x | | k]; cbn [handle]; try reflexivity.
  - unfold addTodo. destruct (String.eqb (trim (inputValue s)) "");
      reflexivity.
  - unfold updateTodo. destruct (String.eqb (trim x) ""); reflexivity.
  - unfold clearCompleted. destruct (Nat.eqb _ 0); reflexivity.
  - unfold fire. destruct (nth_error (timers s) k) as [tm |]; [| reflexivity].
    destruct (timer_callback tm); reflexivity.
Qed.










End Reload.

(* ================================================================== *)
(** ** Ids under a clock that advances *)

Section UniqueIds.

Variable JSON_stringify : json -> string.

Lemma In_remove_nth {A} (x : A) k l : In x (remove_nth k l) -> In x l.
Proof.
  revert k. induction l as [| y l IH]; intros k H.
  - destruct k; destruct H.
  - destruct k as [| k]; cbn in H.
    + right. exact H.
    + destruct H as [-> | H]; [left; reflexivity | right; eauto].
Qed.

Lemma ids_issued_later s s' l :
  readings (clock s') = readings (clock s) ->
  (calls (clock s) <= calls (clock s'))%nat ->
  ids_issued s l -> ids_issued s' l.
Proof.
  intros Hr Hc H t Ht. destruct (H t Ht) as [k [Hk E]].
  exists k. rewrite Hr. split; [lia | exact E].
Qed.

Lemma ids_issued_filter s (p : Todo -> bool) l :
  ids_issued s l -> ids_issued s (filter p l).
Proof. intros H t Ht. apply filter_In in Ht. apply H. tauto. Qed.

Lemma ids_issued_map s (f : Todo -> Todo) l :
  (forall t, todo_id (f t) = todo_id t) ->
  ids_issued s l -> ids_issued s (map f l).
Proof.
  intros Hf H t Ht. apply in_map_iff in Ht. destruct Ht as [t0 [<- Ht0]].
  rewrite Hf. apply H. exact Ht0.
Qed.

Lemma todo_id_toggled id t : todo_id (toggled_task id t) = todo_id t.
Proof.
  unfold toggled_task. destruct (strict_eq (todo_id t) id); reflexivity.
Qed.

Lemma todo_id_edited id x t : todo_id (edited_task id x t) = todo_id t.
Proof.
  unfold edited_task. destruct (strict_eq (todo_id t) id); reflexivity.
Qed.

(** With a clock that advances at every reading, no event makes two tasks
    share an id. *)
Lemma ids_unique_handle s e :
  increasing (clock s) -> ids_unique s -> ids_unique (handle e s).
Proof.
  intros Hinc [Hnd [Hiss Htm]].
  destruct e as [v | | i | i | i x | | k]; cbn [handle].
  - split; [exact Hnd |]. split; [exact Hiss | exact Htm].
  - unfold addTodo.
    destruct (String.eqb (trim (inputValue s)) "").
    + split; [exact Hnd |]. split; [exact Hiss | exact Htm].
    + cbn [Date_now].
      set (s' := setTimeout FocusInput 0 _).
      assert (Hr : readings (clock s') = readings (clock s)) by reflexivity.
      assert (Hc : calls (clock s') = S (S (calls (clock s))))
        by reflexivity.
      assert (Hlater : forall l, ids_issued s l -> ids_issued s' l).
      { intros l. apply ids_issued_later; [exact Hr | lia]. }
      split; [| split].
      * subst s'. cbn [todos setTimeout setInputValue setTodos].
        unfold ids. rewrite map_app. cbn [map todo_id Date_now fst].
        apply NoDup_app; [exact Hnd | repeat constructor; intros [] |].
        intros y Hy [<- | []].
        unfold ids in Hy. apply in_map_iff in Hy.
        destruct Hy as [t [Hid Ht]].
        destruct (Hiss t Ht) as [k [Hk E]].
        rewrite E in Hid. inversion Hid as [Hid'].
        pose proof (Hinc k (calls (clock s)) Hk). lia.
      * intros t Ht. subst s'.
        cbn [todos setTimeout setInputValue setTodos] in Ht.
        apply in_app_or in Ht. destruct Ht as [Ht | [<- | []]].
        -- apply (Hlater _ Hiss). exact Ht.
        -- exists (calls (clock s)). rewrite Hr. split; [lia | reflexivity].
      * intros tm captured Hin Hcb. subst s'.
        cbn [timers setTimeout setInputValue setTodos with_clock] in Hin.
        apply in_app_or in Hin. destruct Hin as [Hin | [<- | []]].
        -- destruct (Htm tm captured Hin Hcb) as [H1 H2].
           split; [exact H1 |].
           apply (ids_issued_later s); [exact Hr | lia | exact H2].
        -- discriminate Hcb.
  - split; [| split; [| exact Htm]].
    + apply NoDup_ids_filter. exact Hnd.
    + apply ids_issued_filter. exact Hiss.
  - split; [| split; [| exact Htm]].
    + cbn [toggleComplete todos setTodos].
      change (NoDup (ids (map (toggled_task i) (todos s)))).
      rewrite ids_toggled. exact Hnd.
    + apply (ids_issued_map s (toggled_task i)); [| exact Hiss].
      intros t. apply todo_id_toggled.
  - unfold updateTodo. destruct (String.eqb (trim x) "").
    + split; [exact Hnd |]. split; [exact Hiss | exact Htm].
    + split; [| split; [| exact Htm]].
      * cbn [todos setTodos].
        change (NoDup (ids (map (edited_task i (trim x)) (todos s)))).
        rewrite ids_edited. exact Hnd.
      * apply (ids_issued_map s (edited_task i (trim x))); [| exact Hiss].
        intros t. apply todo_id_edited.
  - unfold clearCompleted. destruct (Nat.eqb _ 0).
    + split; [exact Hnd |]. split; [exact Hiss | exact Htm].
    + split; [exact Hnd |]. split; [exact Hiss |].
      intros tm captured Hin Hcb.
      cbn [timers setTimeout setExitingIds] in Hin.
      apply in_app_or in Hin. destruct Hin as [Hin | [<- | []]].
      * apply (Htm tm captured Hin Hcb).
      * cbn in Hcb. inversion Hcb. subst captured. split; assumption.
  - unfold fire. destruct (nth_error (timers s) k) as [tm |] eqn:E.
    + assert (Hrest : forall tm' captured,
                 In tm' (remove_nth k (timers s)) ->
                 timer_callback tm' = RemoveCompleted captured ->
                 NoDup (ids captured) /\ ids_issued s captured).
      { intros tm' captured Hin Hcb.
        apply (Htm tm' captured (In_remove_nth _ _ _ Hin) Hcb). }
      destruct (timer_callback tm) as [| captured] eqn:Ecb;
        cbn [run_callback].
      * split; [exact Hnd |]. split; [exact Hiss | exact Hrest].
      * destruct (Htm tm captured (nth_error_In _ _ E) Ecb) as [H1 H2].
        split; [| split; [| exact Hrest]].
        -- apply NoDup_ids_filter. exact H1.
        -- apply ids_issued_filter. exact H2.
    + split; [exact Hnd |]. split; [exact Hiss | exact Htm].
Qed.

Lemma ids_unique_render s :
  ids_unique s -> ids_unique (render JSON_stringify s).
Proof.
  unfold ids_unique, ids_issued.
  rewrite todos_render, timers_render, clock_render. tauto.
Qed.

Lemma ids_unique_run es :
  forall s,
    increasing (clock s) -> ids_unique s ->
    ids_unique (run JSON_stringify s es).
Proof.
  induction es as [| e es IH]; intros s Hinc Hu.
  - exact Hu.
  - cbn [run fold_left]. apply IH.
    + intros m n Hmn. rewrite clock_step, handle_readings.
      apply Hinc. exact Hmn.
    + apply ids_unique_render. apply ids_unique_handle; assumption.
Qed.

(** X5. With a clock whose every reading is later than the one before, ids
    stay unique: from the empty list, after any sequence of events (typing,
    add, delete, toggle, edit, clearCompleted, timeouts) no two tasks of the
    list have the same id, and a delete removes at most one task. *)
Theorem ids_stay_unique_when_the_clock_advances
        (cap : nat) (c : Clock) (es : list Event) :
  increasing c ->
  NoDup (ids (todos (run JSON_stringify (empty_state cap c) es)))
  /\ (forall id,
         (List.length
            (todos (run JSON_stringify (empty_state cap c) es))
          <= S (List.length
                  (todos
                     (remove JSON_stringify id
                        (run JSON_stringify (empty_state cap c) es)))))%nat).
Proof.
  intros Hinc.
  assert (Hu : ids_unique (run JSON_stringify (empty_state cap c) es)).
  { apply ids_unique_run; [exact Hinc |].
    split; [constructor |]. split.
    - intros t [].
    - intros tm captured []. }
  destruct Hu as [Hnd _]. split; [exact Hnd |].
  intros id. rewrite todos_remove.
  set (l := todos (run JSON_stringify (empty_state cap c) es)) in *.
  destruct (existsb (has_id id) l) eqn:Ex.
  - apply existsb_has_id in Ex.
    rewrite (length_delete_hit id l Hnd Ex). lia.
  - assert (Hmiss : ~ In id (ids l)).
    { intros Hin. apply existsb_has_id in Hin. congruence. }
    rewrite (length_delete_miss id l Hmiss). lia.
Qed.

End UniqueIds.

(* ================================================================== *)
(** ** The row *)

Section Row.

Variable JSON_stringify : json -> string.
Variable toLocaleDateString : Z -> bool -> string.
Variable getFullYear : Z -> Z.

Lemma div_1000_bounds a k :
  (a / 1000 <? k) = (a <? 1000 * k).
Proof.
  destruct (Z.ltb_spec (a / 1000) k) as [H | H];
    destruct (Z.ltb_spec a (1000 * k)) as [H' | H']; try reflexivity;
    exfalso.
  - apply (Z.div_le_lower_bound a 1000 k) in H'; lia.
  - apply (Z.div_lt_upper_bound a 1000 k) in H'; lia.
Qed.

(** X14. The relative time of a row, for a creation time that is a number
    and a current time that is a time value. A creation time of 0 shows
    nothing. A creation time that is a time value, at most 8.64e15
    milliseconds on either side of 1970, reads Just now when it is less than
    a minute old or in the future; between one minute and one hour it reads
    as a whole number of minutes from 1 to 59, and between one hour and one
    day as a whole number of hours from 1 to 23, each in the singular
    exactly when the number is 1; from one day on the calendar date is
    shown, with the year exactly when it differs from the current year. A
    creation time beyond that range, however far in the future or the past,
    reads Invalid Date. *)
Theorem formatTimestamp_reads_as_relative_time (timestamp now : Z) :
  Z.abs now <= MAX_TIME ->
  formatTimestamp toLocaleDateString getFullYear 0 now = ""
  /\ (timestamp <> 0 -> Z.abs timestamp <= MAX_TIME ->
      (now - timestamp < 60000 ->
       formatTimestamp toLocaleDateString getFullYear timestamp now
       = "Just now")
      /\ (60000 <= now - timestamp < 3600000 ->
          exists m,
            1 <= m <= 59 /\ m = (now - timestamp) / 60000
            /\ formatTimestamp toLocaleDateString getFullYear timestamp now
               = (RefJSON.print_num m ++ " minute"
                  ++ (if (m =? 1)%Z then "" else "s") ++ " ago")%string)
      /\ (3600000 <= now - timestamp < 86400000 ->
          exists h,
            1 <= h <= 23 /\ h = (now - timestamp) / 3600000
            /\ formatTimestamp toLocaleDateString getFullYear timestamp now
               = (RefJSON.print_num h ++ " hour"
                  ++ (if (h =? 1)%Z then "" else "s") ++ " ago")%string)
      /\ (86400000 <= now - timestamp ->
          formatTimestamp toLocaleDateString getFullYear timestamp now
          = toLocaleDateString timestamp
              (negb (getFullYear timestamp =? getFullYear now))))
  /\ (MAX_TIME < Z.abs timestamp ->
      formatTimestamp toLocaleDateString getFullYear timestamp now
      = "Invalid Date").
Proof.
  intros _. split; [reflexivity |]. split.
  - intros Hts Hrange. unfold formatTimestamp.
    destruct (Z.eqb_spec timestamp 0) as [E | _]; [contradiction |].
    unfold new_Date.
    destruct (Z.leb_spec (Z.abs timestamp) MAX_TIME) as [_ | Hout];
      [| lia].
    cbv zeta.
    cbn [elapsed floor_div less Date_toLocaleDateString year_differs
         number_text].
    rewrite !div_1000_bounds.
    change (1000 * 60) with 60000. change (1000 * 3600) with 3600000.
    change (1000 * 86400) with 86400000.
    set (a := now - timestamp).
    assert (Hplural : forall n, 1 <= n ->
                                plural (Some n)
                                = if n =? 1 then "" else "s").
    { intros n Hn. unfold plural, greater.
      destruct (Z.ltb_spec 1 n), (Z.eqb_spec n 1); try reflexivity; lia. }
    split; [| split; [| split]].
    + intros H. destruct (Z.ltb_spec a 60000); [reflexivity | lia].
    + intros [H1 H2].
      destruct (Z.ltb_spec a 60000); [lia |].
      destruct (Z.ltb_spec a 3600000); [| lia].
      assert (Ediv : a / 1000 / 60 = a / 60000)
        by (rewrite Z.div_div by lia; reflexivity).
      rewrite Ediv.
      assert (Hm : 1 <= a / 60000 <= 59).
      { split.
        - apply Z.div_le_lower_bound; lia.
        - assert (a / 60000 < 60) by (apply Z.div_lt_upper_bound; lia).
          lia. }
      exists (a / 60000). split; [exact Hm |]. split; [reflexivity |].
      rewrite (Hplural _ (proj1 Hm)). reflexivity.
    + intros [H1 H2].
      destruct (Z.ltb_spec a 60000); [lia |].
      destruct (Z.ltb_spec a 3600000); [lia |].
      destruct (Z.ltb_spec a 86400000); [| lia].
      assert (Ediv : a / 1000 / 3600 = a / 3600000)
        by (rewrite Z.div_div by lia; reflexivity).
      rewrite Ediv.
      assert (Hh : 1 <= a / 3600000 <= 23).
      { split.
        - apply Z.div_le_lower_bound; lia.
        - assert (a / 3600000 < 24) by (apply Z.div_lt_upper_bound; lia).
          lia. }
      exists (a / 3600000). split; [exact Hh |]. split; [reflexivity |].
      rewrite (Hplural _ (proj1 Hh)). reflexivity.
    + intros H.
      destruct (Z.ltb_spec a 60000); [lia |].
      destruct (Z.ltb_spec a 3600000); [lia |].
      destruct (Z.ltb_spec a 86400000); [lia |].
      reflexivity.
  - intros Hout. unfold formatTimestamp.
    destruct (Z.eqb_spec timestamp 0) as [E | _];
      [subst timestamp; unfold MAX_TIME in Hout; cbn in Hout; lia |].
    unfold new_Date.
    destruct (Z.leb_spec (Z.abs timestamp) MAX_TIME) as [Hin | _];
      [lia |].
    reflexivity.
Qed.

(** X12. An edit made in the row reaches the list as edit(id, text). After the
    editor was opened and a text typed, Enter closes the editor and calls
    the component only when the trimmed text is not empty, and the list is
    then the one edit(id, text) gives; Escape closes the editor, puts the
    text of the task back into it and calls nothing; any other key changes
    nothing; and a click on the row while the editor is open toggles
    nothing. When the text of the task is not a string and the editor is
    saved as it was opened, the handler throws. *)
Theorem edit_in_the_row_reaches_the_list
        (todo : Todo) (it : Item) (v : string) (target : Target) (s : State) :
  let opened := fst (handleEditClick todo it) in
  let typed := changeEditText v opened in
  handleEditKeyDown todo "Enter" typed
  = Normal (mkItem (wasCompleted it) false (JStr v),
            if blank v then None
            else Some (SaveEdit (todo_id todo) (trim v)))
  /\ todos (forward JSON_stringify
              (if blank v then None
               else Some (SaveEdit (todo_id todo) (trim v))) s)
     = todos (edit JSON_stringify (todo_id todo) v s)
  /\ handleEditKeyDown todo "Escape" typed
     = Normal (mkItem (wasCompleted it) false (todo_text todo), None)
  /\ (forall key, key <> "Enter" -> key <> "Escape" ->
                  handleEditKeyDown todo key typed = Normal (typed, None))
  /\ handleItemClick todo target typed = (typed, None)
  /\ ((forall x, todo_text todo <> JStr x) ->
      handleEditKeyDown todo "Enter" opened = Throw).
Proof.
  intros opened typed.
  split; [reflexivity |]. split; [| split; [reflexivity |]].
  - rewrite (todos_edit JSON_stringify). unfold blank.
    destruct (String.eqb (trim v) "") eqn:Hb; cbn [forward].
    + reflexivity.
    + rewrite todos_step. cbn [handle]. unfold updateTodo.
      rewrite trim_idempotent, Hb. reflexivity.
  - split; [| split].
    + intros key H1 H2. unfold handleEditKeyDown.
      destruct (String.eqb_spec key "Enter"); [contradiction |].
      destruct (String.eqb_spec key "Escape"); [contradiction |].
      reflexivity.
    + destruct target; reflexivity.
    + intros Hns. unfold handleEditKeyDown, handleSaveEdit. cbn.
      destruct (todo_text todo) as [| | | x | |]; try reflexivity.
      exfalso. apply (Hns x). reflexivity.
Qed.

Lemma settleItem_spec todo it :
  settleItem todo it
  = ((if justCompleted todo it then 1 else 0)%nat,
     mkItem (todo_completed todo) (isEditing it) (editText it)).
Proof.
  unfold settleItem, completionEffect.
  cbn [wasCompleted isEditing editText].
  destruct (strict_eq (wasCompleted it) (todo_completed todo));
    [reflexivity |].
  unfold justCompleted at 2. cbn [wasCompleted].
  rewrite andb_negb_r. rewrite Nat.add_0_r. reflexivity.
Qed.

Lemma rerenders_spec versions :
  forall it,
    fst (rerenders it versions)
    = rising_edges (wasCompleted it) (map todo_completed versions).
Proof.
  induction versions as [| todo versions IH]; intros it.
  - reflexivity.
  - cbn [rerenders map rising_edges]. rewrite settleItem_spec.
    specialize (IH (mkItem (todo_completed todo) (isEditing it) (editText it))).
    destruct (rerenders _ versions) as [m it2]. cbn [fst] in *.
    rewrite IH. cbn [wasCompleted]. unfold justCompleted.
    rewrite andb_comm. reflexivity.
Qed.

(** X13. The orbs and the sound of a row come once per change of its task
    from not completed to completed: never when the row is mounted, however
    the task is flagged then, never for a change to not completed, and not a
    second time when the effect runs again after its own update. *)
Theorem row_celebrates_once_per_completion
        (todo : Todo) (versions : list Todo) (it : Item) :
  celebrations todo versions
  = rising_edges (todo_completed todo) (map todo_completed versions)
  /\ fst (settleItem todo (mountItem todo)) = 0%nat
  /\ fst (settleItem todo (snd (settleItem todo it))) = 0%nat
  /\ (truthy (todo_completed todo) = false ->
      fst (settleItem todo it) = 0%nat)
  /\ (truthy (todo_completed todo) = true ->
      truthy (wasCompleted it) = false ->
      fst (settleItem todo it) = 1%nat).
Proof.
  assert (Hself : forall i e,
             justCompleted todo (mkItem (todo_completed todo) i e) = false).
  { intros i e. unfold justCompleted. cbn. apply andb_negb_r. }
  split; [| split; [| split; [| split]]].
  - unfold celebrations. rewrite settleItem_spec.
    unfold mountItem. rewrite Hself.
    rewrite (surjective_pairing (rerenders _ versions)). cbn [fst].
    rewrite rerenders_spec. reflexivity.
  - rewrite settleItem_spec. unfold mountItem. rewrite Hself. reflexivity.
  - rewrite !settleItem_spec. cbn [snd fst]. rewrite Hself. reflexivity.
  - intros H. rewrite settleItem_spec. unfold justCompleted. rewrite H.
    reflexivity.
  - intros H1 H2. rewrite settleItem_spec. unfold justCompleted.
    rewrite H1, H2. reflexivity.
Qed.

(** X15. The number of orbs is 5, 6, 7 or 8, whatever [Math.random()] draws in
    its range, from 0 inclusive to 1 exclusive. *)
Theorem orbCount_is_between_5_and_8 (p q : Z) :
  0 <= p < q -> 5 <= orbCount p q <= 8.
Proof.
  intros [Hp Hq]. unfold orbCount.
  assert (H0 : 0 <= 4 * p / q) by (apply Z.div_pos; lia).
  assert (H4 : 4 * p / q < 4) by (apply Z.div_lt_upper_bound; lia).
  lia.
Qed.

End Row.

(* ================================================================== *)
(** ** Starting over a slot, and clearing twice *)

Section MountAndClear.

Variable JSON_parse : string -> option json.
Variable JSON_stringify : json -> string.


Lemma remove_nth_middle {A} (l : list A) x r :
  remove_nth (List.length l) (l ++ x :: r) = l ++ r.
Proof.
  induction l as [| y l IH]; cbn.
  - reflexivity.
  - rewrite IH. reflexivity.
Qed.

Lemma nth_error_middle {A} (l : list A) x r :
  nth_error (l ++ x :: r) (List.length l) = Some x.
Proof.
  rewrite nth_error_app2 by apply Nat.le_refl.
  rewrite Nat.sub_diag. reflexivity.
Qed.

(** X11. clearCompleted called twice in a row, before the first removal
    fires, registers two removals of the same list: when both have fired the
    list is the same as after the first, the exiting ids are cleared and no
    removal is left pending. *)
Theorem clearCompleted_twice_removes_once (s : State) :
  existsb is_completed (todos s) = true ->
  let removal := mkTimer 400 (RemoveCompleted (todos s)) in
  let s2 := step JSON_stringify (step JSON_stringify s ClickClear)
                 ClickClear in
  let k := List.length (timers s) in
  let s3 := step JSON_stringify s2 (TimerFires k) in
  let s4 := step JSON_stringify s3 (TimerFires k) in
  timers s2 = timers s ++ [removal; removal]
  /\ todos s2 = todos s
  /\ todos s3 = filter (fun todo => negb (is_completed todo)) (todos s)
  /\ todos s4 = todos s3
  /\ exitingIds s4 = []
  /\ timers s4 = timers s.
Proof.
  intros Hc removal s2 k s3 s4.
  set (s1 := step JSON_stringify s ClickClear) in *.
  assert (Hh : forall x, handle ClickClear x = clearCompleted x)
    by reflexivity.
  assert (E1 : todos s1 = todos s).
  { subst s1. rewrite todos_step, Hh, (clearCompleted_some s Hc).
    reflexivity. }
  assert (T1 : timers s1 = timers s ++ [removal]).
  { subst s1. rewrite timers_step, Hh, (clearCompleted_some s Hc).
    reflexivity. }
  assert (Hc1 : existsb is_completed (todos s1) = true)
    by (rewrite E1; exact Hc).
  assert (E2 : todos s2 = todos s).
  { subst s2. rewrite todos_step, Hh, (clearCompleted_some s1 Hc1).
    exact E1. }
  assert (T2 : timers s2 = timers s ++ [removal; removal]).
  { subst s2. rewrite timers_step, Hh, (clearCompleted_some s1 Hc1).
    cbn [timers setTimeout setExitingIds]. rewrite T1, E1.
    rewrite <- app_assoc. reflexivity. }
  assert (K2 : nth_error (timers s2) k = Some removal).
  { rewrite T2. apply nth_error_middle. }
  destruct (fire_removal JSON_stringify s2 k _ _ K2) as [E3 [_ T3]].
  fold s3 in E3, T3.
  assert (T3' : timers s3 = timers s ++ [removal]).
  { rewrite T3, T2. apply remove_nth_middle. }
  assert (K3 : nth_error (timers s3) k = Some removal).
  { rewrite T3'. apply nth_error_middle. }
  destruct (fire_removal JSON_stringify s3 k _ _ K3) as [E4 [X4 T4]].
  fold s4 in E4, X4, T4.
  repeat split.
  - exact T2.
  - exact E2.
  - exact E3.
  - rewrite E4, E3. reflexivity.
  - exact X4.
  - rewrite T4, T3'. unfold k.
    rewrite (remove_nth_middle (timers s) removal []). apply app_nil_r.
Qed.

End MountAndClear.

(* ================================================================== *)
(** ** Concrete runs, with the reference printer and parser *)

(** The repair of createdAt does not read as the specification words it.
    An entry whose id is 0 has an id, yet its createdAt becomes a clock
    reading, not 0; and a stored array with a null entry loads as the empty
    list, so that its other entries are not repaired at all. *)
Lemma createdAt_repair_counterexample :
  ~ createdAt_repaired_from_id
      RefJSON.parse (stored (JArr [entry_with_zero_id])) (ticking 1000)
  /\ ~ createdAt_repaired_from_id
         RefJSON.parse (stored (JArr [JNull; entry_without_createdAt]))
         (ticking 1000).
Proof.
  split; intros H.
  - destruct (H (RefJSON.stringify (JArr [entry_with_zero_id]))
                [entry_with_zero_id] eq_refl eq_refl
                ltac:(discriminate) 0%nat entry_with_zero_id
                eq_refl eq_refl) as [t [Ht Hc]].
    vm_compute in Ht. inversion Ht. subst t.
    vm_compute in Hc. discriminate Hc.
  - destruct (H (RefJSON.stringify (JArr [JNull; entry_without_createdAt]))
                [JNull; entry_without_createdAt] eq_refl eq_refl
                ltac:(discriminate) 1%nat entry_without_createdAt
                eq_refl eq_refl) as [t [Ht _]].
    vm_compute in Ht. discriminate Ht.
Qed.


(** The length is not the number of adds minus the number of deletes: an
    add of a blank text adds nothing, and a delete of an id that the list
    does not hold removes nothing. *)
Lemma length_count_counterexample :
  ~ length_is_adds_minus_deletes
      RefJSON.stringify (empty_state 4096 (ticking 1000)) [Add "   "]
  /\ ~ length_is_adds_minus_deletes
         RefJSON.stringify (empty_state 4096 (ticking 1000))
         [Add "A"; Remove (JNum 999)].
Proof.
  split; intros H; vm_compute in H; discriminate H.
Qed.

(** The round trip on the sample list. *)
Lemma save_then_load_round_trip_witness :
  loadTodosFromStorage RefJSON.parse
    (saveTodos RefJSON.stringify sample_tasks (mkStorage None 4096))
    sample_clock
  = (sample_tasks, sample_clock).
Proof.
  refine (proj1 save_then_load_round_trip
                sample_tasks (mkStorage None 4096) sample_clock _ _).
  - vm_compute. reflexivity.
  - apply Nat.leb_le. vm_compute. reflexivity.
Defined.

(** Loading the entry with id 5, text x and completed false. *)
Lemma load_recovers_and_repairs_witness :
  loadTodosFromStorage RefJSON.parse
    (stored (JArr [entry_without_createdAt])) sample_clock
  = ([mkTodo (JNum 5) (JStr "x") (JBool false) (JNum 5)], sample_clock).
Proof.
  destruct (load_recovers_and_repairs
              RefJSON.parse
              (stored (JArr [entry_without_createdAt])) sample_clock)
    as [_ [_ [_ [_ [_ H]]]]].
  apply (H (RefJSON.stringify (JArr [entry_without_createdAt]))).
  - reflexivity.
  - vm_compute. discriminate.
  - vm_compute. reflexivity.
Defined.

(** An edit of the second sample task. *)
Lemma edit_replaces_text_witness :
  nth_error
    (todos (edit RefJSON.stringify (JNum 1700000000500) "  Call Bob "
                 sample_state)) 1
  = Some (mkTodo (JNum 1700000000500) (JStr "Call Bob") (JBool false)
                 (JNum 1700000000501)).
Proof.
  destruct (edit_replaces_text_of_matching_task
              RefJSON.stringify (JNum 1700000000500) "  Call Bob "
              sample_state eq_refl)
    as [_ [_ H]].
  destruct H as [_ [H _]].
  - vm_compute. discriminate.
  - apply (H 1%nat (mkTodo (JNum 1700000000500) (JStr "Call Ann")
                           (JBool false) (JNum 1700000000501))).
    reflexivity.
Defined.

(** A toggle of the second sample task. *)
Lemma toggle_flips_completed_witness :
  exists todo',
    nth_error
      (todos (toggle RefJSON.stringify (JNum 1700000000500) sample_state)) 1
    = Some todo'
    /\ todo_id todo' = JNum 1700000000500
    /\ todo_text todo' = JStr "Call Ann"
    /\ todo_createdAt todo' = JNum 1700000000501
    /\ todo_completed todo' = JBool true.
Proof.
  destruct (toggle_flips_completed_only
              RefJSON.stringify (JNum 1700000000500) sample_state eq_refl)
    as [_ [H _]].
  apply (H 1%nat (mkTodo (JNum 1700000000500) (JStr "Call Ann")
                         (JBool false) (JNum 1700000000501))).
  reflexivity.
Defined.

(** clearCompleted on the sample list, whose first task is completed. *)
Lemma clearCompleted_witness :
  exitingIds (step RefJSON.stringify sample_state ClickClear)
  = [JNum 1700000000000]
  /\ todos (step RefJSON.stringify
                 (step RefJSON.stringify sample_state ClickClear)
                 (TimerFires 0))
     = [mkTodo (JNum 1700000000500) (JStr "Call Ann") (JBool false)
               (JNum 1700000000501)].
Proof.
  destruct (clearCompleted_removes_completed_after_delay
              RefJSON.stringify sample_state) as [_ [_ [H _]]].
  destruct H as [_ [He [_ [Ht Hf]]]].
  - reflexivity.
  - split.
    + exact He.
    + destruct (Hf (step RefJSON.stringify sample_state ClickClear) 0%nat)
        as [Hl _].
      * rewrite Ht. reflexivity.
      * exact Hl.
Defined.

(** An add between clearCompleted and the timeout, on the sample list. *)
Lemma deferred_removal_discards_add_witness :
  todos (step RefJSON.stringify
              (add RefJSON.stringify "Water plants"
                   (step RefJSON.stringify sample_state ClickClear))
              (TimerFires 0))
  = [mkTodo (JNum 1700000000500) (JStr "Call Ann") (JBool false)
            (JNum 1700000000501)].
Proof.
  destruct (deferred_removal_discards_interleaved_add
              RefJSON.stringify sample_state "Water plants")
    as [_ [_ [_ [H _]]]].
  - reflexivity.
  - vm_compute. discriminate.
  - exact H.
Defined.


(** The sample sequence: three adds of which one is blank, two deletes of
    which one misses; one task is left. *)
Lemma operation_sequences_witness :
  (List.length
     (todos (apply_ops RefJSON.stringify
                       (empty_state 4096 sample_clock) sample_ops))
   + deletes_applied RefJSON.stringify
                     (empty_state 4096 sample_clock) sample_ops
   = adds_applied sample_ops)%nat.
Proof.
  destruct (operation_sequences_from_empty_list
              RefJSON.stringify 4096 sample_clock) as [H _].
  destruct (H sample_ops) as [Hlen _].
  - vm_compute. repeat constructor; cbn; intuition discriminate.
  - exact Hlen.
Defined.

(** A delete of the first sample task, and of an id that is not there. *)
Lemma delete_removes_witness :
  (forall t,
      In t (todos (remove RefJSON.stringify (JNum 1700000000000)
                          sample_state)) ->
      todo_id t <> JNum 1700000000000)
  /\ In sample_task
        (todos (remove RefJSON.stringify (JNum 1700000000000) sample_state))
  /\ todos (remove RefJSON.stringify (JNum 7) sample_state) = sample_tasks.
Proof.
  destruct (delete_removes_exactly_the_matching_tasks
              RefJSON.stringify (JNum 1700000000000) sample_state eq_refl)
    as [H1 [H2 _]].
  destruct (delete_removes_exactly_the_matching_tasks
              RefJSON.stringify (JNum 7) sample_state eq_refl)
    as [_ [_ [_ [H4 _]]]].
  split; [exact H1 |]. split.
  - apply H2.
    + right. left. reflexivity.
    + discriminate.
  - apply H4. cbn. intuition discriminate.
Defined.

(** The button of the sample list, whose first task is completed. *)
Lemma counters_and_button_witness :
  timers (step RefJSON.stringify sample_state ClickClear)
  = [mkTimer 400 (RemoveCompleted sample_tasks)].
Proof.
  destruct (counters_and_button_agree_with_the_list
              RefJSON.stringify sample_state) as [_ [_ [H _]]].
  apply H. reflexivity.
Defined.

(** Two toggles of the second sample task. *)
Lemma toggle_twice_witness :
  todos (toggle RefJSON.stringify (JNum 1700000000500)
           (toggle RefJSON.stringify (JNum 1700000000500) sample_state))
  = sample_tasks.
Proof.
  destruct (toggle_twice_restores_the_list
              RefJSON.stringify (JNum 1700000000500) (JNum 1700000000500)
              sample_state) as [H _].
  apply H. reflexivity.
Defined.

(** Two edits of the second sample task. *)
Lemma latest_edit_wins_witness :
  todos (edit RefJSON.stringify (JNum 1700000000500) " Call Bob "
           (edit RefJSON.stringify (JNum 1700000000500) "Call Eve"
                 sample_state))
  = todos (edit RefJSON.stringify (JNum 1700000000500) " Call Bob "
                sample_state).
Proof.
  destruct (latest_edit_wins
              RefJSON.stringify (JNum 1700000000500) " Call Bob " "Call Eve"
              sample_state) as [H _].
  apply H. reflexivity.
Defined.

(** An add to the sample list, taken back. *)
Lemma add_then_delete_witness :
  todos (remove RefJSON.stringify (JNum 1700000001000)
           (add RefJSON.stringify "Water plants" sample_state))
  = sample_tasks.
Proof.
  destruct (add_then_delete_gives_back_the_list
              RefJSON.stringify "Water plants" sample_state) as [_ H].
  - reflexivity.
  - apply H. cbn. intuition discriminate.
Defined.

(** A toggle on the sample list is written to the slot. *)
Lemma every_change_is_written_witness :
  todosSet (step RefJSON.stringify sample_state
                 (ClickToggle (JNum 1700000000500))) = false
  /\ capacity (storage (step RefJSON.stringify sample_state
                             (ClickToggle (JNum 1700000000500)))) = 4096%nat.
Proof.
  destruct (every_change_of_the_list_is_written
              RefJSON.stringify sample_state
              (ClickToggle (JNum 1700000000500))) as [H1 [H2 _]].
  - reflexivity.
  - split; [exact H1 | exact H2].
Defined.



(** The ids after the sample events, from the empty list. *)
Lemma ids_stay_unique_witness :
  NoDup (ids (todos (run RefJSON.stringify
                         (empty_state 4096 sample_clock) sample_events))).
Proof.
  destruct (ids_stay_unique_when_the_clock_advances
              RefJSON.stringify 4096 sample_clock sample_events) as [H _].
  - intros m n Hmn. unfold sample_clock, ticking. cbn [readings]. lia.
  - exact H.
Defined.

(** A task created five minutes and a half ago, and one whose creation
    time is no time value. *)
Lemma formatTimestamp_witness :
  (exists m,
      1 <= m <= 59 /\ m = (1700000330000 - 1700000000000) / 60000
      /\ formatTimestamp (fun _ _ => "Nov 14") (fun _ => 2023)
                         1700000000000 1700000330000
         = (RefJSON.print_num m ++ " minute"
            ++ (if (m =? 1)%Z then "" else "s") ++ " ago")%string)
  /\ formatTimestamp (fun _ _ => "Nov 14") (fun _ => 2023)
                     10000000000000000 1700000330000
     = "Invalid Date".
Proof.
  split.
  - destruct (formatTimestamp_reads_as_relative_time
                (fun _ _ => "Nov 14") (fun _ => 2023)
                1700000000000 1700000330000) as [_ [H _]].
    + unfold MAX_TIME. lia.
    + destruct H as [_ [H _]].
      * discriminate.
      * unfold MAX_TIME. lia.
      * apply H. lia.
  - destruct (formatTimestamp_reads_as_relative_time
                (fun _ _ => "Nov 14") (fun _ => 2023)
                10000000000000000 1700000330000) as [_ [_ H]].
    + unfold MAX_TIME. lia.
    + apply H. unfold MAX_TIME. lia.
Defined.

(** Saving the sample row as it was opened, for a task whose text is a
    number. *)
Lemma edit_in_the_row_witness :
  handleEditKeyDown (mkTodo (JNum 5) (JNum 7) (JBool false) (JNum 5))
    "Enter"
    (fst (handleEditClick (mkTodo (JNum 5) (JNum 7) (JBool false) (JNum 5))
                          sample_row))
  = Throw.
Proof.
  destruct (edit_in_the_row_reaches_the_list
              RefJSON.stringify
              (mkTodo (JNum 5) (JNum 7) (JBool false) (JNum 5))
              sample_row "y" Elsewhere sample_state)
    as [_ [_ [_ [_ [_ H]]]]].
  apply H. intros x. discriminate.
Defined.

(** The sample row, rendered with its task completed. *)
Lemma row_celebrates_witness :
  fst (settleItem (mkTodo (JNum 1700000000500) (JStr "Call Ann")
                          (JBool true) (JNum 1700000000501))
                  sample_row) = 1%nat.
Proof.
  destruct (row_celebrates_once_per_completion
              (mkTodo (JNum 1700000000500) (JStr "Call Ann")
                      (JBool true) (JNum 1700000000501))
              [] sample_row) as [_ [_ [_ [_ H]]]].
  apply H; reflexivity.
Defined.

(** The draw 3/4. *)
Lemma orbCount_witness : 5 <= orbCount 3 4 <= 8.
Proof. apply orbCount_is_between_5_and_8. lia. Defined.


(** clearCompleted twice on the sample list. *)
Lemma clearCompleted_twice_witness :
  todos (step RefJSON.stringify
           (step RefJSON.stringify
              (step RefJSON.stringify
                 (step RefJSON.stringify sample_state ClickClear)
                 ClickClear)
              (TimerFires 0))
           (TimerFires 0))
  = [sample_task].
Proof.
  destruct (clearCompleted_twice_removes_once RefJSON.stringify sample_state)
    as [_ [_ [H3 [H4 _]]]].
  - reflexivity.
  - cbn [sample_state timers List.length] in H3, H4.
    rewrite H4, H3. reflexivity.
Defined.
